(** * Deprecation-warning test harness of react-native-firebase

    A shallow embedding of [checkV9Deprecation] and
    [createCheckV9Deprecation] (the jest utilities that check that a
    namespaced call warns once and a modular call does not), together with
    the part of jest's mock machinery they rely on: [jest.spyOn] on
    [console.warn], [mockImplementation], [mockClear], [mockReset],
    [mockRestore] and the matchers [toHaveBeenCalled],
    [toHaveBeenCalledTimes] and [toMatch]. *)

From Stdlib Require Import String List Arith Lia Bool.
From stdpp Require Import base list.
Import ListNotations.

Local Open Scope string_scope.
Local Open Scope list_scope.

(** ** JavaScript values *)

(** [hay.includes(needle)]: the test behind [expect(hay).toMatch(needle)]
    when [needle] is a string. *)
Fixpoint includes (needle hay : string) : bool :=
  String.prefix needle hay
  || match hay with
     | EmptyString => false
     | String _ rest => includes needle rest
     end.

(** [a || b] where [a] is a string or [undefined]: the empty string and
    [undefined] are the falsy values. *)
Definition js_or (a : option string) (b : string) : string :=
  match a with
  | Some (String c rest) => String c rest
  | Some EmptyString => b
  | None => b
  end.

(** ** Test outcomes *)

Inductive failure : Type :=
| NotCalledFailed (received : nat)
    (* expect(spy).not.toHaveBeenCalled() on a spy called [received] times *)
| CalledTimesFailed (expected received : nat)
    (* expect(spy).toHaveBeenCalledTimes(expected) *)
| ToMatchFailed (received expected : string)
    (* expect(received).toMatch(expected) *)
| Thrown (e : string).
    (* an exception of the function under test *)

Inductive result (A : Type) : Type :=
| Ok (a : A)
| Err (e : failure).
Arguments Ok {A} a.
Arguments Err {A} e.

(** ** The mock store *)

(** The implementations a spy on [console.warn] is given in the harness.
    [ExpectMatch] is the closure of [createCheckV9Deprecation], which keeps
    the four values it passes to [createMessage] at each call. *)
Inductive implementation : Type :=
| CallThrough                       (* what spyOn installs: forward to the original *)
| Unset                             (* after mockReset *)
| Noop                              (* () => {} *)
| ExpectMatch (moduleName : option string) (methodNameKey instanceName : string)
              (uniqueMessage : option string).

(** A jest mock function: the payloads it was called with ([mock.calls]),
    its current implementation, and where it comes from. A mock function
    made by [jest.spyOn] knows the function it replaced, and [mockRestore]
    puts that one back; a [jest.fn()] that a test assigned to
    [console.warn] itself has nothing to put back. *)
Record mockFn : Type := MockFn {
  calls : list string;
  mockImpl : implementation;
  fromSpyOn : bool
}.

(** What the property [console.warn] holds: the function that was there
    before any spy, or one of the mock functions of the store. *)
Inductive warnFn : Type :=
| Original
| Spy (id : nat).

(** The state the harness works on. Mock functions are objects: a spy is
    named by its position in [mocks], and [console.warn] and the harness's
    local constants may name the same one. *)
Record world : Type := World {
  console_warn : warnFn;
  mocks : list mockFn
}.

(** [console.warn] names a mock function that exists. *)
Definition wf (w : world) : Prop :=
  match console_warn w with
  | Original => True
  | Spy id => id < length (mocks w)
  end.

(** ** Computations: state passing with a synchronous failure *)

Definition M (A : Type) : Type := world -> world * result A.

Definition ret {A} (a : A) : M A := fun w => (w, Ok a).

Definition bind {A B} (c : M A) (k : A -> M B) : M B :=
  fun w =>
    match c w with
    | (w', Ok a) => k a w'
    | (w', Err e) => (w', Err e)
    end.

Declare Scope harness_scope.
Delimit Scope harness_scope with harness.
Notation "'const' x := c 'in' k" := (bind c (fun x => k))
  (at level 10, x name, c at level 100, k at level 200) : harness_scope.
Notation "c ;; k" := (bind c (fun _ => k))
  (at level 100, k at level 200, right associativity) : harness_scope.

Definition outcome {A} (c : M A) (w : world) : result A := snd (c w).
Definition final {A} (c : M A) (w : world) : world := fst (c w).

(** ** Functions under test *)

(** A zero-argument function, as far as the harness can see it: it calls
    [console.warn] some number of times, and returns or throws. When a call
    of [console.warn] throws (the interceptor's assertion), the function
    either lets the exception through ([handler = None]) or catches it and
    goes on as [handler] says. *)
#[local] Unset Elimination Schemes.
Inductive fn : Type :=
| Return
| Throw (e : string)
| Warn (payload : string) (next : fn) (handler : option fn).
#[local] Set Elimination Schemes.

(** Induction on a function under test, with the handler as a case. *)
Fixpoint fn_induction (P : fn -> Prop)
    (HReturn : P Return)
    (HThrow : forall e, P (Throw e))
    (HWarn : forall payload next, P next -> P (Warn payload next None))
    (HCatch : forall payload next h, P next -> P h -> P (Warn payload next (Some h)))
    (f : fn) {struct f} : P f :=
  match f with
  | Return => HReturn
  | Throw e => HThrow e
  | Warn payload next None =>
      HWarn payload next (fn_induction P HReturn HThrow HWarn HCatch next)
  | Warn payload next (Some h) =>
      HCatch payload next h
        (fn_induction P HReturn HThrow HWarn HCatch next)
        (fn_induction P HReturn HThrow HWarn HCatch h)
  end.

(** ** The message formatter *)

Module Formatter.
Section Template.

(** The fixed text of the template, which the spec leaves open. *)
Variables (opening between1 between2 delimiter : string).

(** Modelled from the spec: the message formatter [createMessage] of
    './index' is missing from the source files. The spec has it build, as a
    pure function, a canonical deprecation string in a fixed template from
    the module name, the method key and the instance name, followed by the
    caller's unique suffix when there is one; an empty suffix leaves no
    stray delimiter. *)
Definition createMessage (moduleName methodNameKey instanceName : string)
    (uniqueMessage : option string) : string :=
  opening ++ moduleName ++ between1 ++ methodNameKey ++ between2 ++ instanceName
  ++ match uniqueMessage with
     | Some (String c rest) => delimiter ++ String c rest
     | Some EmptyString => ""
     | None => ""
     end.

End Template.
End Formatter.

(** A formatter to run the harness on concrete calls: the one above with a
    fixed text, an [undefined] module name printed as JavaScript prints it. *)
Definition exampleCreateMessage (moduleName : option string)
    (methodNameKey instanceName : string) (uniqueMessage : option string)
  : string :=
  Formatter.createMessage "deprecated: " "." " on " " - "
    (default "undefined" moduleName) methodNameKey instanceName uniqueMessage.

(** An environment where nothing spies on [console.warn] yet. *)
Definition pristine : world := {| console_warn := Original; mocks := [] |}.

(** An environment in which a test has put a spy of its own in
    [console.warn] with [jest.spyOn], an earlier spy being left in the
    store. *)
Definition spied : world :=
  {| console_warn := Spy 1;
     mocks := [ {| calls := ["left over"]; mockImpl := Unset; fromSpyOn := true |};
                {| calls := ["seen by the test"]; mockImpl := Noop;
                   fromSpyOn := true |} ] |}.

(** An environment in which a test has assigned a [jest.fn()] to
    [console.warn]. *)
Definition assigned : world :=
  {| console_warn := Spy 0;
     mocks := [ {| calls := ["seen by the test"]; mockImpl := Noop;
                   fromSpyOn := false |} ] |}.

(** A modular call, which does not warn, and its namespaced twin, which
    warns once with the message of the example formatter. *)
Definition modularOnValue : fn := Return.
Definition legacyOnValue : fn :=
  Warn "deprecated: database.onValue on default" Return None.

Section Harness.

(** The message formatter imported from './index'. Its source is not part of
    the files at hand: the harness is verified for any formatter. The module
    name and the unique message may be [undefined]. *)
Variable createMessage :
  option string -> string -> string -> option string -> string.

(** [expect(received).toMatch(expected)] *)
Definition expect_toMatch (received expected : string) : result unit :=
  if includes expected received then Ok tt
  else Err (ToMatchFailed received expected).

(** The body of a mock's implementation, applied to one payload. *)
Definition run_impl (i : implementation) (warnMessage : string) : result unit :=
  match i with
  | CallThrough => Ok tt
  | Unset => Ok tt
  | Noop => Ok tt
  | ExpectMatch moduleName methodNameKey instanceName uniqueMessage =>
      let message := createMessage moduleName methodNameKey instanceName uniqueMessage in
      expect_toMatch warnMessage message
  end.

Definition record_call (payload : string) (m : mockFn) : mockFn :=
  {| calls := calls m ++ [payload]; mockImpl := mockImpl m;
     fromSpyOn := fromSpyOn m |}.

(** [console.warn(payload)]: a mock function records the call, then runs its
    implementation; the original function does not throw. *)
Definition call_console_warn (payload : string) : M unit :=
  fun w =>
    match console_warn w with
    | Original => (w, Ok tt)
    | Spy id =>
        match mocks w !! id with
        | Some m =>
            ({| console_warn := Spy id;
                mocks := <[id := record_call payload m]> (mocks w) |},
             run_impl (mockImpl m) payload)
        | None => (w, Ok tt)
        end
    end.

(** Calling a function under test. *)
Fixpoint invoke (f : fn) (w : world) : world * result unit :=
  match f with
  | Return => (w, Ok tt)
  | Throw e => (w, Err (Thrown e))
  | Warn payload next handler =>
      match call_console_warn payload w with
      | (w', Ok _) => invoke next w'
      | (w', Err e) =>
          match handler with
          | Some h => invoke h w'
          | None => (w', Err e)
          end
      end
  end.

(** ** jest *)

(** [jest.spyOn(console, 'warn')]: a property that already holds a mock
    function is returned as it is; otherwise a new mock function that
    forwards to the original takes its place. *)
Definition spyOn_console_warn : M nat :=
  fun w =>
    match console_warn w with
    | Spy id => (w, Ok id)
    | Original =>
        let id := length (mocks w) in
        ({| console_warn := Spy id;
            mocks := mocks w ++ [ {| calls := []; mockImpl := CallThrough;
                                     fromSpyOn := true |} ] |},
         Ok id)
    end.

Definition update_mock (spy : nat) (f : mockFn -> mockFn) (w : world) : world :=
  {| console_warn := console_warn w; mocks := alter f spy (mocks w) |}.

(** [spy.mockImplementation(i)] returns the spy. *)
Definition mockImplementation (spy : nat) (i : implementation) : M nat :=
  fun w =>
    (update_mock spy (fun m => {| calls := calls m; mockImpl := i;
                                  fromSpyOn := fromSpyOn m |}) w,
     Ok spy).

(** [spy.mockClear()] forgets the recorded calls. *)
Definition mockClear (spy : nat) : M unit :=
  fun w =>
    (update_mock spy (fun m => {| calls := []; mockImpl := mockImpl m;
                                  fromSpyOn := fromSpyOn m |}) w,
     Ok tt).

(** [spy.mockReset()] does what [mockClear] does and drops the implementation. *)
Definition mockReset (spy : nat) : M unit :=
  fun w =>
    (update_mock spy (fun m => {| calls := []; mockImpl := Unset;
                                  fromSpyOn := fromSpyOn m |}) w,
     Ok tt).

(** [spy.mockRestore()] does what [mockReset] does, and a mock function
    made by [jest.spyOn] puts the original function back in [console.warn].
    A [jest.fn()] has nothing to put back: [console.warn] keeps what it
    holds. (A handle that names no mock function of the store does not
    arise; it counts as a spy.) *)
Definition mockRestore (spy : nat) : M unit :=
  fun w =>
    ({| console_warn :=
          match fromSpyOn <$> mocks w !! spy with
          | Some false => console_warn w
          | Some true => Original
          | None => Original
          end;
        mocks := alter (fun m => {| calls := []; mockImpl := Unset;
                                    fromSpyOn := fromSpyOn m |}) spy (mocks w) |},
     Ok tt).

(** [spy.mock.calls.length] *)
Definition callCount (spy : nat) (w : world) : nat :=
  match mocks w !! spy with
  | Some m => length (calls m)
  | None => 0
  end.

(** [expect(spy).not.toHaveBeenCalled()] *)
Definition expect_not_toHaveBeenCalled (spy : nat) : M unit :=
  fun w =>
    match callCount spy w with
    | 0 => (w, Ok tt)
    | S n => (w, Err (NotCalledFailed (S n)))
    end.

(** [expect(spy).toHaveBeenCalledTimes(n)] *)
Definition expect_toHaveBeenCalledTimes (spy : nat) (n : nat) : M unit :=
  fun w =>
    if Nat.eqb (callCount spy w) n then (w, Ok tt)
    else (w, Err (CalledTimesFailed n (callCount spy w))).

(** ** The harness *)

Local Open Scope harness_scope.

Definition checkV9Deprecation (modularFunction nonModularFunction : fn) : M unit :=
  const consoleWarnSpy :=
    (const spy := spyOn_console_warn in mockImplementation spy Noop) in
  mockRestore consoleWarnSpy ;;
  invoke modularFunction ;;
  expect_not_toHaveBeenCalled consoleWarnSpy ;;
  mockClear consoleWarnSpy ;;
  const consoleWarnSpy2 :=
    (const spy := spyOn_console_warn in mockImplementation spy Noop) in
  invoke nonModularFunction ;;
  expect_toHaveBeenCalledTimes consoleWarnSpy2 1 ;;
  mockClear consoleWarnSpy2.

Definition CheckV9DeprecationFunction : Type :=
  fn -> fn -> string -> option string -> M unit.

Definition createCheckV9Deprecation (moduleNames : list string)
  : CheckV9DeprecationFunction :=
  fun modularFunction nonModularFunction methodNameKey uniqueMessage =>
    let moduleName := moduleNames !! 0 in
    let instanceName := js_or (moduleNames !! 1) "default" in
    const consoleWarnSpy :=
      (const spy := spyOn_console_warn in mockImplementation spy Noop) in
    mockReset consoleWarnSpy ;;
    invoke modularFunction ;;
    expect_not_toHaveBeenCalled consoleWarnSpy ;;
    mockReset consoleWarnSpy ;;
    mockRestore consoleWarnSpy ;;
    const consoleWarnSpy2 :=
      (const spy := spyOn_console_warn in
       mockImplementation spy
         (ExpectMatch moduleName methodNameKey instanceName uniqueMessage)) in
    invoke nonModularFunction ;;
    expect_toHaveBeenCalledTimes consoleWarnSpy2 1 ;;
    mockReset consoleWarnSpy2.

(** ** The harness up to its two assertions *)

(** [checkV9Deprecation] up to the call of [modularFunction]. *)
Definition checkV9Deprecation_modular_call (modularFunction : fn) : M nat :=
  const consoleWarnSpy :=
    (const spy := spyOn_console_warn in mockImplementation spy Noop) in
  mockRestore consoleWarnSpy ;;
  invoke modularFunction ;;
  ret consoleWarnSpy.

(** [checkV9Deprecation] up to the call of [nonModularFunction]. *)
Definition checkV9Deprecation_legacy_call
    (modularFunction nonModularFunction : fn) : M nat :=
  const consoleWarnSpy := checkV9Deprecation_modular_call modularFunction in
  expect_not_toHaveBeenCalled consoleWarnSpy ;;
  mockClear consoleWarnSpy ;;
  const consoleWarnSpy2 :=
    (const spy := spyOn_console_warn in mockImplementation spy Noop) in
  invoke nonModularFunction ;;
  ret consoleWarnSpy2.

(** The checker of [createCheckV9Deprecation] up to the call of
    [nonModularFunction]. *)
Definition createCheckV9Deprecation_legacy_call (moduleNames : list string)
    (modularFunction nonModularFunction : fn) (methodNameKey : string)
    (uniqueMessage : option string) : M nat :=
  let moduleName := moduleNames !! 0 in
  let instanceName := js_or (moduleNames !! 1) "default" in
  const consoleWarnSpy :=
    (const spy := spyOn_console_warn in mockImplementation spy Noop) in
  mockReset consoleWarnSpy ;;
  invoke modularFunction ;;
  expect_not_toHaveBeenCalled consoleWarnSpy ;;
  mockReset consoleWarnSpy ;;
  mockRestore consoleWarnSpy ;;
  const consoleWarnSpy2 :=
    (const spy := spyOn_console_warn in
     mockImplementation spy
       (ExpectMatch moduleName methodNameKey instanceName uniqueMessage)) in
  invoke nonModularFunction ;;
  ret consoleWarnSpy2.

(** ** What a function under test does, read off its text *)

(** The payloads [f] passes to [console.warn], in order, when the function
    installed there has implementation [i]. *)
Fixpoint payloads (i : implementation) (f : fn) : list string :=
  match f with
  | Return => []
  | Throw _ => []
  | Warn payload next handler =>
      payload ::
      match run_impl i payload with
      | Ok _ => payloads i next
      | Err _ =>
          match handler with
          | Some h => payloads i h
          | None => []
          end
      end
  end.

(** How [f] ends under the same implementation. *)
Fixpoint completion (i : implementation) (f : fn) : result unit :=
  match f with
  | Return => Ok tt
  | Throw e => Err (Thrown e)
  | Warn payload next handler =>
      match run_impl i payload with
      | Ok _ => completion i next
      | Err e =>
          match handler with
          | Some h => completion i h
          | None => Err e
          end
      end
  end.

(** The function that warns with each payload of [qs] in turn (each call
    with its own handler) and then goes on as [k]. *)
Definition warns_then (qs : list (string * option fn)) (k : fn) : fn :=
  foldr (fun q f => Warn (fst q) f (snd q)) k qs.

(** The interceptor that the checker made from [moduleNames] installs for
    the legacy call. *)
Definition interceptor (moduleNames : list string) (methodNameKey : string)
    (uniqueMessage : option string) : implementation :=
  ExpectMatch (moduleNames !! 0) methodNameKey
              (js_or (moduleNames !! 1) "default") uniqueMessage.


(** The spy that [jest.spyOn(console, 'warn')] returns in [w]: the one
    already installed, or the next mock function of the store. *)
Definition first_spy (w : world) : nat :=
  match console_warn w with
  | Original => length (mocks w)
  | Spy id => id
  end.

(** Whether [mockRestore] on that spy puts the original function back: it
    does unless [console.warn] holds a [jest.fn()] at the start. *)
Definition first_spy_restores (w : world) : bool :=
  match console_warn w with
  | Original => true
  | Spy id =>
      match mocks w !! id with
      | Some m => fromSpyOn m
      | None => true
      end
  end.

(** The store once the first spy has been set up and reset: where both
    harnesses stand when the modular phase is over. *)
Definition store_after_modular (w : world) : list mockFn :=
  alter (fun m => {| calls := []; mockImpl := Unset; fromSpyOn := fromSpyOn m |})
    (first_spy w)
    match console_warn w with
    | Original => mocks w ++ [ {| calls := []; mockImpl := CallThrough;
                                  fromSpyOn := true |} ]
    | Spy _ => mocks w
    end.

(** What [console.warn] holds when the first spy has been restored. *)
Definition console_warn_after_modular (w : world) : warnFn :=
  if first_spy_restores w then Original else Spy (first_spy w).

(** The spy that the second [jest.spyOn(console, 'warn')] of a run returns:
    a new mock function when the first spy could be restored, the first
    spy again when it could not. *)
Definition second_spy (w : world) : nat :=
  if first_spy_restores w then length (store_after_modular w) else first_spy w.

(** The store in the legacy phase, the second spy having recorded [cs] and
    having the implementation [i]. *)
Definition store_at_legacy (w : world) (cs : list string) (i : implementation)
  : list mockFn :=
  let m := {| calls := cs; mockImpl := i; fromSpyOn := first_spy_restores w |} in
  if first_spy_restores w then store_after_modular w ++ [m]
  else <[first_spy w := m]> (store_after_modular w).

(** What the first spy of [checkV9Deprecation] has on record when the
    modular function has run: nothing when it was restored before the call,
    the payloads of the call when it could not be. *)
Definition modular_record (w : world) (modular : fn) : list string :=
  if first_spy_restores w then [] else payloads Noop modular.

(** The store when a run stops in its modular phase, the first spy having
    recorded [cs]. *)
Definition store_at_modular (w : world) (cs : list string) : list mockFn :=
  <[first_spy w := {| calls := cs; mockImpl := Unset;
                      fromSpyOn := first_spy_restores w |}]> (store_after_modular w).

(** A function that catches nothing of what [console.warn] throws. *)
Fixpoint lets_through (f : fn) : bool :=
  match f with
  | Return => true
  | Throw _ => true
  | Warn _ next None => lets_through next
  | Warn _ _ (Some _) => false
  end.

(** ** Calling a function under test *)

Lemma run_impl_silent (i : implementation) (payload : string) :
  match i with ExpectMatch _ _ _ _ => False | _ => True end ->
  run_impl i payload = Ok tt.
Proof. destruct i; simpl; intros H; [reflexivity .. | destruct H]. Qed.

Lemma payloads_silent (i : implementation) (f : fn) :
  match i with ExpectMatch _ _ _ _ => False | _ => True end ->
  payloads i f = payloads Noop f.
Proof.
  intros Hi.
  induction f as [ | e | p k IHk | p k h IHk IHh ] using fn_induction; simpl; try reflexivity;
    rewrite (run_impl_silent i p Hi), IHk; reflexivity.
Qed.

Lemma completion_silent (i : implementation) (f : fn) :
  match i with ExpectMatch _ _ _ _ => False | _ => True end ->
  completion i f = completion Noop f.
Proof.
  intros Hi.
  induction f as [ | e | p k IHk | p k h IHk IHh ] using fn_induction; simpl; try reflexivity;
    rewrite (run_impl_silent i p Hi), IHk; reflexivity.
Qed.

(** With the original function in [console.warn] nothing is recorded and no
    call of it throws. *)
Lemma invoke_original (f : fn) (w : world) :
  console_warn w = Original ->
  invoke f w = (w, completion Noop f).
Proof.
  intros Hw.
  induction f as [ | e | p k IHk | p k h IHk IHh ] using fn_induction; simpl; try reflexivity;
    unfold call_console_warn; rewrite Hw; exact IHk.
Qed.

(** With a spy in [console.warn], the spy records each payload and its
    implementation decides how the function goes on. *)
Lemma invoke_spy (f : fn) :
  forall (id : nat) (l : list mockFn) (cs : list string) (i : implementation)
         (o : bool),
    l !! id = Some {| calls := cs; mockImpl := i; fromSpyOn := o |} ->
    invoke f {| console_warn := Spy id; mocks := l |}
    = ({| console_warn := Spy id;
          mocks := <[id := {| calls := cs ++ payloads i f; mockImpl := i;
                              fromSpyOn := o |}]> l |},
       completion i f).
Proof.
  induction f as [ | e | p k IHk | p k h IHk IHh ] using fn_induction;
    intros id l cs i o Hl.
  - simpl. rewrite app_nil_r, (list_insert_id _ _ _ Hl). reflexivity.
  - simpl. rewrite app_nil_r, (list_insert_id _ _ _ Hl). reflexivity.
  - simpl. unfold call_console_warn. simpl. rewrite Hl. simpl.
    pose proof (lookup_lt_Some _ _ _ Hl) as Hlt.
    destruct (run_impl i p) as [ [] | e ].
    + rewrite (IHk id _ (cs ++ [p]) i o).
      * rewrite list_insert_insert_eq, <- app_assoc. reflexivity.
      * apply list_lookup_insert_eq. exact Hlt.
    + reflexivity.
  - simpl. unfold call_console_warn. simpl. rewrite Hl. simpl.
    pose proof (lookup_lt_Some _ _ _ Hl) as Hlt.
    destruct (run_impl i p) as [ [] | e ].
    + rewrite (IHk id _ (cs ++ [p]) i o).
      * rewrite list_insert_insert_eq, <- app_assoc. reflexivity.
      * apply list_lookup_insert_eq. exact Hlt.
    + rewrite (IHh id _ (cs ++ [p]) i o).
      * rewrite list_insert_insert_eq, <- app_assoc. reflexivity.
      * apply list_lookup_insert_eq. exact Hlt.
Qed.

(** ** Sequencing *)

Lemma bind_ok {A B} (c : M A) (k : A -> M B) (w w' : world) (a : A) :
  c w = (w', Ok a) -> bind c k w = k a w'.
Proof. intros H. unfold bind. rewrite H. reflexivity. Qed.

Lemma bind_err {A B} (c : M A) (k : A -> M B) (w w' : world) (e : failure) :
  c w = (w', Err e) -> bind c k w = (w', Err e).
Proof. intros H. unfold bind. rewrite H. reflexivity. Qed.

Lemma bind_assoc {A B C} (c : M A) (f : A -> M B) (g : B -> M C) (w : world) :
  bind (bind c f) g w = bind c (fun a => bind (f a) g) w.
Proof. unfold bind. destruct (c w) as [w' [a | e]]; reflexivity. Qed.

Lemma bind_ext {A B} (c : M A) (k k' : A -> M B) (w : world) :
  (forall a w', k a w' = k' a w') -> bind c k w = bind c k' w.
Proof. intros H. unfold bind. destruct (c w) as [w' [a | e]]; [apply H | reflexivity]. Qed.

Lemma bind_ret_l {A B} (a : A) (k : A -> M B) (w : world) :
  bind (ret a) k w = k a w.
Proof. reflexivity. Qed.

Ltac reassociate :=
  repeat (repeat first [ rewrite bind_assoc | rewrite bind_ret_l ];
          first [ reflexivity | apply bind_ext; intros ? ? ]).

Lemma createCheckV9Deprecation_split (moduleNames : list string)
    (modular legacy : fn) (methodNameKey : string)
    (uniqueMessage : option string) (w : world) :
  createCheckV9Deprecation moduleNames modular legacy methodNameKey uniqueMessage w
  = (const consoleWarnSpy2 :=
       createCheckV9Deprecation_legacy_call
         moduleNames modular legacy methodNameKey uniqueMessage in
     expect_toHaveBeenCalledTimes consoleWarnSpy2 1 ;;
     mockReset consoleWarnSpy2) w.
Proof.
  unfold createCheckV9Deprecation, createCheckV9Deprecation_legacy_call.
  cbv zeta. reassociate.
Qed.

Lemma checkV9Deprecation_modular_split (modular legacy : fn) (w : world) :
  checkV9Deprecation modular legacy w
  = (const consoleWarnSpy := checkV9Deprecation_modular_call modular in
     expect_not_toHaveBeenCalled consoleWarnSpy ;;
     mockClear consoleWarnSpy ;;
     const consoleWarnSpy2 :=
       (const spy := spyOn_console_warn in mockImplementation spy Noop) in
     invoke legacy ;;
     expect_toHaveBeenCalledTimes consoleWarnSpy2 1 ;;
     mockClear consoleWarnSpy2) w.
Proof.
  unfold checkV9Deprecation, checkV9Deprecation_modular_call. reassociate.
Qed.

Lemma checkV9Deprecation_legacy_split (modular legacy : fn) (w : world) :
  checkV9Deprecation_legacy_call modular legacy w
  = (const consoleWarnSpy := checkV9Deprecation_modular_call modular in
     expect_not_toHaveBeenCalled consoleWarnSpy ;;
     mockClear consoleWarnSpy ;;
     const consoleWarnSpy2 :=
       (const spy := spyOn_console_warn in mockImplementation spy Noop) in
     invoke legacy ;;
     ret consoleWarnSpy2) w.
Proof. reflexivity. Qed.

Lemma checkV9Deprecation_split (modular legacy : fn) (w : world) :
  checkV9Deprecation modular legacy w
  = (const consoleWarnSpy2 := checkV9Deprecation_legacy_call modular legacy in
     expect_toHaveBeenCalledTimes consoleWarnSpy2 1 ;;
     mockClear consoleWarnSpy2) w.
Proof.
  unfold checkV9Deprecation, checkV9Deprecation_legacy_call,
    checkV9Deprecation_modular_call.
  reassociate.
Qed.

(** ** The store through a run *)

Lemma spy_setup_store (i : implementation) (w : world) :
  (const spy := spyOn_console_warn in mockImplementation spy i) w
  = ({| console_warn := Spy (first_spy w);
        mocks := alter (fun m => {| calls := calls m; mockImpl := i;
                                    fromSpyOn := fromSpyOn m |}) (first_spy w)
                   match console_warn w with
                   | Original => mocks w ++ [ {| calls := []; mockImpl := CallThrough;
                                                 fromSpyOn := true |} ]
                   | Spy _ => mocks w
                   end |},
     Ok (first_spy w)).
Proof. destruct w as [ [ | id ] l ]; reflexivity. Qed.

(** The first spy, when there is one in the store, stands reset after the
    modular phase. *)
Lemma first_spy_reset (w : world) :
  first_spy w < length (store_after_modular w) ->
  store_after_modular w !! first_spy w
  = Some {| calls := []; mockImpl := Unset; fromSpyOn := first_spy_restores w |}.
Proof.
  unfold store_after_modular, first_spy, first_spy_restores.
  destruct w as [ [ | id ] l ]; simpl; rewrite length_alter, list_lookup_alter_eq;
    intros Hlt.
  - rewrite (list_lookup_middle l [] _ (length l) eq_refl). reflexivity.
  - destruct (lookup_lt_is_Some_2 l id Hlt) as [ m -> ]. reflexivity.
Qed.

Lemma first_spy_allocated (w : world) :
  wf w -> first_spy w < length (store_after_modular w).
Proof.
  unfold store_after_modular, first_spy, wf. rewrite length_alter.
  destruct w as [ [ | id ] l ]; simpl; [ rewrite length_app; simpl; lia | tauto ].
Qed.

(** A [jest.fn()] in [console.warn] is in the store. *)
Lemma first_spy_kept (w : world) :
  first_spy_restores w = false ->
  first_spy w < length (store_after_modular w).
Proof.
  unfold store_after_modular, first_spy, first_spy_restores.
  rewrite length_alter.
  destruct w as [ [ | id ] l ]; simpl; [ discriminate | ].
  destruct (l !! id) as [ m | ] eqn:Hm; [ | discriminate ].
  intros _. exact (lookup_lt_Some _ _ _ Hm).
Qed.

Lemma store_after_modular_length (w : world) :
  length (store_after_modular w)
  = length (mocks w) + match console_warn w with Original => 1 | Spy _ => 0 end.
Proof.
  unfold store_after_modular. rewrite length_alter.
  destruct (console_warn w); [ rewrite length_app; reflexivity | lia ].
Qed.

Lemma store_after_modular_others (w : world) (id : nat) :
  id < length (mocks w) ->
  Spy id <> console_warn w ->
  store_after_modular w !! id = mocks w !! id.
Proof.
  unfold store_after_modular, first_spy. intros Hid Hne.
  destruct (console_warn w) as [ | id' ].
  - rewrite list_lookup_alter_ne by lia. apply lookup_app_l. exact Hid.
  - apply list_lookup_alter_ne. congruence.
Qed.

(** Writing the reset first spy back changes nothing. *)
Lemma store_after_modular_rewritten (w : world) :
  <[first_spy w := {| calls := []; mockImpl := Unset;
                      fromSpyOn := first_spy_restores w |}]> (store_after_modular w)
  = store_after_modular w.
Proof. apply list_insert_id'. apply first_spy_reset. Qed.

Lemma second_spy_lookup (w : world) (cs : list string) (i : implementation) :
  store_at_legacy w cs i !! second_spy w
  = Some {| calls := cs; mockImpl := i; fromSpyOn := first_spy_restores w |}.
Proof.
  unfold store_at_legacy, second_spy.
  destruct (first_spy_restores w) eqn:Hr.
  - apply list_lookup_middle. reflexivity.
  - apply list_lookup_insert_eq. apply first_spy_kept. exact Hr.
Qed.

Lemma store_at_legacy_insert (w : world) (cs cs' : list string)
    (i i' : implementation) :
  <[second_spy w := {| calls := cs'; mockImpl := i';
                       fromSpyOn := first_spy_restores w |}]> (store_at_legacy w cs i)
  = store_at_legacy w cs' i'.
Proof.
  unfold store_at_legacy, second_spy.
  destruct (first_spy_restores w).
  - replace (length (store_after_modular w))
      with (length (store_after_modular w) + 0) at 1 by lia.
    rewrite insert_app_r. reflexivity.
  - apply list_insert_insert_eq.
Qed.

Lemma store_at_legacy_length (w : world) (cs : list string) (i : implementation) :
  length (store_at_legacy w cs i)
  = length (store_after_modular w) + if first_spy_restores w then 1 else 0.
Proof.
  unfold store_at_legacy. destruct (first_spy_restores w).
  - rewrite length_app. reflexivity.
  - rewrite length_insert. lia.
Qed.

Lemma store_at_legacy_others (w : world) (cs : list string) (i : implementation)
    (id : nat) :
  id < length (mocks w) ->
  Spy id <> console_warn w ->
  store_at_legacy w cs i !! id = mocks w !! id.
Proof.
  intros Hid Hne.
  pose proof (store_after_modular_others w id Hid Hne) as Hsame.
  pose proof (store_after_modular_length w) as Hlen.
  unfold store_at_legacy. destruct (first_spy_restores w).
  - rewrite lookup_app_l by lia. exact Hsame.
  - rewrite list_lookup_insert_ne; [ exact Hsame | ].
    unfold first_spy. destruct (console_warn w); [ lia | congruence ].
Qed.

Lemma alter_lookup (f : mockFn -> mockFn) (l : list mockFn) (i : nat) (x : mockFn) :
  l !! i = Some x -> alter f i l = <[i := f x]> l.
Proof.
  intros Hx. rewrite list_insert_alter.
  apply list_alter_ext; [ | reflexivity ].
  intros y Hy. congruence.
Qed.

Lemma store_at_modular_nil (w : world) :
  store_at_modular w [] = store_after_modular w.
Proof. apply store_after_modular_rewritten. Qed.

(** The first spy restored ([checkV9Deprecation], line 7). *)
Lemma restore_first_spy (i : implementation) (w : world) :
  mockRestore (first_spy w)
    {| console_warn := Spy (first_spy w);
       mocks := alter (fun m => {| calls := calls m; mockImpl := i;
                                   fromSpyOn := fromSpyOn m |}) (first_spy w)
                  match console_warn w with
                  | Original => mocks w ++ [ {| calls := []; mockImpl := CallThrough;
                                                fromSpyOn := true |} ]
                  | Spy _ => mocks w
                  end |}
  = ({| console_warn := console_warn_after_modular w;
        mocks := store_after_modular w |}, Ok tt).
Proof.
  unfold mockRestore, console_warn_after_modular, store_after_modular,
    first_spy_restores, first_spy.
  destruct w as [ [ | id ] l ]; simpl;
    rewrite list_lookup_alter_eq, list_alter_alter_eq.
  - rewrite (list_lookup_middle l [] _ (length l) eq_refl). reflexivity.
  - destruct (l !! id) as [ [ cs j [ | ] ] | ]; reflexivity.
Qed.

(** The first spy reset (the checker, line 36). *)
Lemma reset_first_spy (i : implementation) (w : world) :
  mockReset (first_spy w)
    {| console_warn := Spy (first_spy w);
       mocks := alter (fun m => {| calls := calls m; mockImpl := i;
                                   fromSpyOn := fromSpyOn m |}) (first_spy w)
                  match console_warn w with
                  | Original => mocks w ++ [ {| calls := []; mockImpl := CallThrough;
                                                fromSpyOn := true |} ]
                  | Spy _ => mocks w
                  end |}
  = ({| console_warn := Spy (first_spy w); mocks := store_after_modular w |}, Ok tt).
Proof.
  unfold mockReset, update_mock, store_after_modular. simpl.
  rewrite list_alter_alter_eq. reflexivity.
Qed.

(** The first spy reset and restored after the modular call (the checker,
    lines 39 and 40). *)
Lemma reset_and_restore_first_spy (w : world) :
  first_spy w < length (store_after_modular w) ->
  (mockReset (first_spy w) ;; mockRestore (first_spy w))
    {| console_warn := Spy (first_spy w); mocks := store_after_modular w |}
  = ({| console_warn := console_warn_after_modular w;
        mocks := store_after_modular w |}, Ok tt).
Proof.
  intros Hlt. pose proof (first_spy_reset w Hlt) as Hspy.
  unfold bind, mockReset, mockRestore, update_mock, console_warn_after_modular.
  simpl. rewrite !(alter_lookup _ _ _ _ Hspy). simpl.
  rewrite (list_lookup_insert_eq _ _ _ Hlt). simpl.
  rewrite (alter_lookup _ (<[_ := _]> _) (first_spy w) _
             (list_lookup_insert_eq _ _ _ Hlt)).
  simpl. rewrite list_insert_insert_eq, (list_insert_id _ _ _ Hspy).
  destruct (first_spy_restores w); reflexivity.
Qed.

(** The second spy set up: [jest.spyOn] and [mockImplementation] once the
    first spy has been restored. *)
Lemma second_spy_setup (i : implementation) (w : world) :
  (const spy := spyOn_console_warn in mockImplementation spy i)
    {| console_warn := console_warn_after_modular w;
       mocks := store_after_modular w |}
  = ({| console_warn := Spy (second_spy w); mocks := store_at_legacy w [] i |},
     Ok (second_spy w)).
Proof.
  unfold console_warn_after_modular, second_spy, store_at_legacy.
  destruct (first_spy_restores w) eqn:Hr.
  - unfold bind, spyOn_console_warn, mockImplementation, update_mock. simpl.
    replace (length (store_after_modular w))
      with (length (store_after_modular w) + 0) at 2 by lia.
    rewrite alter_app_r. reflexivity.
  - pose proof (first_spy_reset w (first_spy_kept w Hr)) as Hspy.
    rewrite Hr in Hspy.
    unfold bind, spyOn_console_warn, mockImplementation, update_mock. simpl.
    rewrite (alter_lookup _ _ _ _ Hspy). reflexivity.
Qed.

(** The legacy call, the second spy being in [console.warn]. *)
Lemma invoke_legacy (i : implementation) (legacy : fn) (w : world) :
  invoke legacy
    {| console_warn := Spy (second_spy w); mocks := store_at_legacy w [] i |}
  = ({| console_warn := Spy (second_spy w);
        mocks := store_at_legacy w (payloads i legacy) i |},
     completion i legacy).
Proof.
  rewrite (invoke_spy legacy _ _ [] i (first_spy_restores w)
             (second_spy_lookup w [] i)).
  simpl app. rewrite store_at_legacy_insert. reflexivity.
Qed.

(** The modular call, the first spy being in [console.warn], reset. *)
Lemma invoke_modular (modular : fn) (w : world) :
  first_spy w < length (store_after_modular w) ->
  invoke modular
    {| console_warn := Spy (first_spy w); mocks := store_after_modular w |}
  = ({| console_warn := Spy (first_spy w);
        mocks := store_at_modular w (payloads Noop modular) |},
     completion Noop modular).
Proof.
  intros Hlt.
  rewrite (invoke_spy modular _ _ [] Unset (first_spy_restores w)
             (first_spy_reset w Hlt)).
  simpl app.
  rewrite (completion_silent Unset), (payloads_silent Unset) by exact I.
  reflexivity.
Qed.

Lemma callCount_second_spy (w : world) (cs : list string) (i : implementation)
    (c : warnFn) :
  callCount (second_spy w) {| console_warn := c; mocks := store_at_legacy w cs i |}
  = length cs.
Proof. unfold callCount. simpl. rewrite second_spy_lookup. reflexivity. Qed.

Lemma callCount_first_spy (w : world) (cs : list string) (c : warnFn) :
  first_spy w < length (store_after_modular w) ->
  callCount (first_spy w) {| console_warn := c; mocks := store_at_modular w cs |}
  = length cs.
Proof.
  intros Hlt. unfold callCount, store_at_modular. simpl.
  rewrite (list_lookup_insert_eq _ _ _ Hlt). reflexivity.
Qed.

(** The exactly-once assertion and the clean-up after it. *)
Lemma assert_once_then_clear (w : world) (cs : list string) (i : implementation) :
  (expect_toHaveBeenCalledTimes (second_spy w) 1 ;; mockClear (second_spy w))
    {| console_warn := Spy (second_spy w); mocks := store_at_legacy w cs i |}
  = if Nat.eqb (length cs) 1
    then ({| console_warn := Spy (second_spy w);
             mocks := store_at_legacy w [] i |}, Ok tt)
    else ({| console_warn := Spy (second_spy w);
             mocks := store_at_legacy w cs i |},
          Err (CalledTimesFailed 1 (length cs))).
Proof.
  unfold bind, expect_toHaveBeenCalledTimes. rewrite callCount_second_spy.
  destruct (Nat.eqb (length cs) 1); [ | reflexivity ].
  unfold mockClear, update_mock. simpl.
  rewrite (alter_lookup _ _ _ _ (second_spy_lookup w cs i)). simpl.
  rewrite store_at_legacy_insert. reflexivity.
Qed.

Lemma assert_once_then_reset (w : world) (cs : list string) (i : implementation) :
  (expect_toHaveBeenCalledTimes (second_spy w) 1 ;; mockReset (second_spy w))
    {| console_warn := Spy (second_spy w); mocks := store_at_legacy w cs i |}
  = if Nat.eqb (length cs) 1
    then ({| console_warn := Spy (second_spy w);
             mocks := store_at_legacy w [] Unset |}, Ok tt)
    else ({| console_warn := Spy (second_spy w);
             mocks := store_at_legacy w cs i |},
          Err (CalledTimesFailed 1 (length cs))).
Proof.
  unfold bind, expect_toHaveBeenCalledTimes. rewrite callCount_second_spy.
  destruct (Nat.eqb (length cs) 1); [ | reflexivity ].
  unfold mockReset, update_mock. simpl.
  rewrite (alter_lookup _ _ _ _ (second_spy_lookup w cs i)). simpl.
  rewrite store_at_legacy_insert. reflexivity.
Qed.

(** ** Every run of the harness *)

(** [checkV9Deprecation] up to the call of the modular function. *)
Lemma checkV9Deprecation_modular_call_trace (modular : fn) (w : world) :
  checkV9Deprecation_modular_call modular w
  = ({| console_warn := console_warn_after_modular w;
        mocks := store_at_modular w (modular_record w modular) |},
     match completion Noop modular with
     | Ok _ => Ok (first_spy w)
     | Err e => Err e
     end).
Proof.
  unfold checkV9Deprecation_modular_call.
  rewrite (bind_ok _ _ _ _ _ (spy_setup_store Noop w)).
  rewrite (bind_ok _ _ _ _ _ (restore_first_spy Noop w)).
  unfold bind, ret, modular_record, console_warn_after_modular.
  destruct (first_spy_restores w) eqn:Hr.
  - rewrite invoke_original by reflexivity. rewrite store_at_modular_nil.
    destruct (completion Noop modular) as [ [] | e ]; reflexivity.
  - rewrite (invoke_modular modular w (first_spy_kept w Hr)).
    destruct (completion Noop modular) as [ [] | e ]; reflexivity.
Qed.

Lemma callCount_modular_record (modular : fn) (w : world) (c : warnFn) :
  callCount (first_spy w)
    {| console_warn := c; mocks := store_at_modular w (modular_record w modular) |}
  = length (modular_record w modular).
Proof.
  unfold modular_record. destruct (first_spy_restores w) eqn:Hr.
  - rewrite store_at_modular_nil. unfold callCount. simpl.
    destruct (store_after_modular w !! first_spy w) as [ m | ] eqn:Hm;
      [ | reflexivity ].
    rewrite (first_spy_reset w (lookup_lt_Some _ _ _ Hm)) in Hm.
    injection Hm as <-. reflexivity.
  - apply callCount_first_spy. apply first_spy_kept. exact Hr.
Qed.

(** The first spy cleared after a modular call without a record
    ([checkV9Deprecation], line 10). *)
Lemma clear_first_spy (w : world) (c : warnFn) :
  mockClear (first_spy w) {| console_warn := c; mocks := store_after_modular w |}
  = ({| console_warn := c; mocks := store_after_modular w |}, Ok tt).
Proof.
  unfold mockClear, update_mock, store_after_modular. simpl.
  rewrite list_alter_alter_eq. reflexivity.
Qed.

(** [checkV9Deprecation] up to the call of the legacy function. *)
Lemma checkV9Deprecation_legacy_call_trace (modular legacy : fn) (w : world) :
  checkV9Deprecation_legacy_call modular legacy w
  = let stopped :=
      {| console_warn := console_warn_after_modular w;
         mocks := store_at_modular w (modular_record w modular) |} in
    match completion Noop modular with
    | Err e => (stopped, Err e)
    | Ok _ =>
        match modular_record w modular with
        | _ :: _ =>
            (stopped, Err (NotCalledFailed (length (modular_record w modular))))
        | [] =>
            ({| console_warn := Spy (second_spy w);
                mocks := store_at_legacy w (payloads Noop legacy) Noop |},
             match completion Noop legacy with
             | Ok _ => Ok (second_spy w)
             | Err e => Err e
             end)
        end
    end.
Proof.
  cbv zeta. unfold checkV9Deprecation_legacy_call.
  pose proof (checkV9Deprecation_modular_call_trace modular w) as Hrun.
  destruct (completion Noop modular) as [ [] | e ].
  2: { rewrite (bind_err _ _ _ _ _ Hrun). reflexivity. }
  rewrite (bind_ok _ _ _ _ _ Hrun).
  unfold expect_not_toHaveBeenCalled at 1, bind at 1.
  rewrite callCount_modular_record.
  destruct (modular_record w modular) as [ | p ps ]; [ | reflexivity ].
  simpl length. cbv beta iota. rewrite store_at_modular_nil.
  rewrite (bind_ok _ _ _ _ _ (clear_first_spy w _)).
  rewrite (bind_ok _ _ _ _ _ (second_spy_setup Noop w)).
  unfold bind, ret. rewrite invoke_legacy.
  destruct (completion Noop legacy) as [ [] | e ]; reflexivity.
Qed.

(** A run of [checkV9Deprecation], with the environment it leaves. *)
Lemma checkV9Deprecation_trace (modular legacy : fn) (w : world) :
  checkV9Deprecation modular legacy w
  = let stopped :=
      {| console_warn := console_warn_after_modular w;
         mocks := store_at_modular w (modular_record w modular) |} in
    match completion Noop modular with
    | Err e => (stopped, Err e)
    | Ok _ =>
        match modular_record w modular with
        | _ :: _ =>
            (stopped, Err (NotCalledFailed (length (modular_record w modular))))
        | [] =>
            match completion Noop legacy with
            | Err e =>
                ({| console_warn := Spy (second_spy w);
                    mocks := store_at_legacy w (payloads Noop legacy) Noop |},
                 Err e)
            | Ok _ =>
                if Nat.eqb (length (payloads Noop legacy)) 1
                then ({| console_warn := Spy (second_spy w);
                         mocks := store_at_legacy w [] Noop |}, Ok tt)
                else ({| console_warn := Spy (second_spy w);
                         mocks := store_at_legacy w (payloads Noop legacy) Noop |},
                      Err (CalledTimesFailed 1 (length (payloads Noop legacy))))
            end
        end
    end.
Proof.
  cbv zeta. rewrite checkV9Deprecation_split.
  pose proof (checkV9Deprecation_legacy_call_trace modular legacy w) as Hrun.
  cbv zeta in Hrun.
  destruct (completion Noop modular) as [ [] | e ].
  2: { rewrite (bind_err _ _ _ _ _ Hrun). reflexivity. }
  destruct (modular_record w modular) as [ | p ps ].
  2: { rewrite (bind_err _ _ _ _ _ Hrun). reflexivity. }
  destruct (completion Noop legacy) as [ [] | e ].
  2: { rewrite (bind_err _ _ _ _ _ Hrun). reflexivity. }
  rewrite (bind_ok _ _ _ _ _ Hrun). apply assert_once_then_clear.
Qed.

(** The checker up to the call of the legacy function. *)
Lemma createCheckV9Deprecation_legacy_call_trace (moduleNames : list string)
    (modular legacy : fn) (methodNameKey : string)
    (uniqueMessage : option string) (w : world) :
  wf w ->
  let i := interceptor moduleNames methodNameKey uniqueMessage in
  let stopped :=
    {| console_warn := Spy (first_spy w);
       mocks := store_at_modular w (payloads Noop modular) |} in
  createCheckV9Deprecation_legacy_call
    moduleNames modular legacy methodNameKey uniqueMessage w
  = match completion Noop modular with
    | Err e => (stopped, Err e)
    | Ok _ =>
        match payloads Noop modular with
        | _ :: _ => (stopped, Err (NotCalledFailed (length (payloads Noop modular))))
        | [] =>
            ({| console_warn := Spy (second_spy w);
                mocks := store_at_legacy w (payloads i legacy) i |},
             match completion i legacy with
             | Ok _ => Ok (second_spy w)
             | Err e => Err e
             end)
        end
    end.
Proof.
  intros Hwf i stopped. pose proof (first_spy_allocated w Hwf) as Hlt.
  unfold createCheckV9Deprecation_legacy_call. cbv zeta.
  rewrite (bind_ok _ _ _ _ _ (spy_setup_store Noop w)).
  rewrite (bind_ok _ _ _ _ _ (reset_first_spy Noop w)).
  pose proof (invoke_modular modular w Hlt) as Hinv. fold stopped in Hinv.
  destruct (completion Noop modular) as [ [] | e ].
  2: { rewrite (bind_err _ _ _ _ _ Hinv). reflexivity. }
  rewrite (bind_ok _ _ _ _ _ Hinv).
  unfold expect_not_toHaveBeenCalled at 1, bind at 1.
  unfold stopped at 1. rewrite (callCount_first_spy w _ _ Hlt).
  destruct (payloads Noop modular) as [ | p ps ] eqn:Hp; [ | reflexivity ].
  simpl length. cbv beta iota. unfold stopped. rewrite store_at_modular_nil.
  pose proof (reset_and_restore_first_spy w Hlt) as Hrestore.
  unfold bind at 1 in Hrestore.
  destruct (mockReset (first_spy w) _) as [ w1 [ [] | e ] ] eqn:Hreset.
  2: { discriminate Hrestore. }
  rewrite (bind_ok _ _ _ _ _ Hreset), (bind_ok _ _ _ _ _ Hrestore).
  rewrite (bind_ok _ _ _ _ _ (second_spy_setup _ w)).
  unfold bind, ret. rewrite invoke_legacy. unfold i, interceptor.
  destruct (completion _ legacy) as [ [] | e ]; reflexivity.
Qed.

(** A run of the checker, with the environment it leaves. *)
Lemma createCheckV9Deprecation_trace (moduleNames : list string)
    (modular legacy : fn) (methodNameKey : string)
    (uniqueMessage : option string) (w : world) :
  wf w ->
  let i := interceptor moduleNames methodNameKey uniqueMessage in
  let stopped :=
    {| console_warn := Spy (first_spy w);
       mocks := store_at_modular w (payloads Noop modular) |} in
  createCheckV9Deprecation moduleNames modular legacy methodNameKey uniqueMessage w
  = match completion Noop modular with
    | Err e => (stopped, Err e)
    | Ok _ =>
        match payloads Noop modular with
        | _ :: _ => (stopped, Err (NotCalledFailed (length (payloads Noop modular))))
        | [] =>
            match completion i legacy with
            | Err e =>
                ({| console_warn := Spy (second_spy w);
                    mocks := store_at_legacy w (payloads i legacy) i |},
                 Err e)
            | Ok _ =>
                if Nat.eqb (length (payloads i legacy)) 1
                then ({| console_warn := Spy (second_spy w);
                         mocks := store_at_legacy w [] Unset |}, Ok tt)
                else ({| console_warn := Spy (second_spy w);
                         mocks := store_at_legacy w (payloads i legacy) i |},
                      Err (CalledTimesFailed 1 (length (payloads i legacy))))
            end
        end
    end.
Proof.
  intros Hwf i stopped. rewrite createCheckV9Deprecation_split.
  pose proof (createCheckV9Deprecation_legacy_call_trace moduleNames modular
                legacy methodNameKey uniqueMessage w Hwf) as Hrun.
  cbv zeta in Hrun. fold i stopped in Hrun.
  destruct (completion Noop modular) as [ [] | e ].
  2: { rewrite (bind_err _ _ _ _ _ Hrun). reflexivity. }
  destruct (payloads Noop modular) as [ | p ps ].
  2: { rewrite (bind_err _ _ _ _ _ Hrun). reflexivity. }
  destruct (completion i legacy) as [ [] | e ].
  2: { rewrite (bind_err _ _ _ _ _ Hrun). reflexivity. }
  rewrite (bind_ok _ _ _ _ _ Hrun). apply assert_once_then_reset.
Qed.

(** ** What a run leaves behind *)

Lemma restores_at_legacy (w : world) (cs : list string) (i : implementation) :
  first_spy_restores
    {| console_warn := Spy (second_spy w); mocks := store_at_legacy w cs i |}
  = first_spy_restores w.
Proof.
  unfold first_spy_restores at 1. simpl. rewrite second_spy_lookup. reflexivity.
Qed.

Lemma wf_at_legacy (w : world) (cs : list string) (i : implementation) :
  wf {| console_warn := Spy (second_spy w); mocks := store_at_legacy w cs i |}.
Proof.
  unfold wf. simpl. exact (lookup_lt_Some _ _ _ (second_spy_lookup w cs i)).
Qed.

Lemma store_at_modular_lookup (w : world) (cs : list string) :
  first_spy w < length (store_after_modular w) ->
  store_at_modular w cs !! first_spy w
  = Some {| calls := cs; mockImpl := Unset; fromSpyOn := first_spy_restores w |}.
Proof. intros Hlt. apply list_lookup_insert_eq. exact Hlt. Qed.

Lemma store_at_modular_length (w : world) (cs : list string) :
  length (store_at_modular w cs) = length (store_after_modular w).
Proof. apply length_insert. Qed.

Lemma store_at_modular_others (w : world) (cs : list string) (id : nat) :
  id < length (mocks w) ->
  Spy id <> console_warn w ->
  store_at_modular w cs !! id = mocks w !! id.
Proof.
  intros Hid Hne. unfold store_at_modular.
  rewrite list_lookup_insert_ne; [ apply store_after_modular_others; assumption | ].
  unfold first_spy. destruct (console_warn w); [ lia | congruence ].
Qed.

(** Where [checkV9Deprecation] stops in its modular phase. *)
Lemma restores_at_modular (w : world) (cs : list string) :
  first_spy_restores
    {| console_warn := console_warn_after_modular w; mocks := store_at_modular w cs |}
  = first_spy_restores w.
Proof.
  unfold console_warn_after_modular.
  destruct (first_spy_restores w) eqn:Hr; [ reflexivity | ].
  unfold first_spy_restores at 1. simpl.
  rewrite (store_at_modular_lookup w cs (first_spy_kept w Hr)). exact Hr.
Qed.

Lemma wf_at_modular (w : world) (cs : list string) :
  wf {| console_warn := console_warn_after_modular w; mocks := store_at_modular w cs |}.
Proof.
  unfold wf, console_warn_after_modular.
  destruct (first_spy_restores w) eqn:Hr; simpl; [ exact I | ].
  rewrite store_at_modular_length. apply first_spy_kept. exact Hr.
Qed.

(** Where the checker stops in its modular phase. *)
Lemma restores_at_checker_stop (w : world) (cs : list string) :
  wf w ->
  first_spy_restores
    {| console_warn := Spy (first_spy w); mocks := store_at_modular w cs |}
  = first_spy_restores w.
Proof.
  intros Hwf. unfold first_spy_restores at 1. simpl.
  rewrite (store_at_modular_lookup w cs (first_spy_allocated w Hwf)). reflexivity.
Qed.

Lemma wf_at_checker_stop (w : world) (cs : list string) :
  wf w ->
  wf {| console_warn := Spy (first_spy w); mocks := store_at_modular w cs |}.
Proof.
  intros Hwf. unfold wf. simpl. rewrite store_at_modular_length.
  apply first_spy_allocated. exact Hwf.
Qed.

Ltac each_exit :=
  repeat match goal with
         | |- context [match ?x with _ => _ end] => destruct x
         end.

Lemma checkV9Deprecation_wf (modular legacy : fn) (w : world) :
  wf (final (checkV9Deprecation modular legacy) w).
Proof.
  unfold final. rewrite checkV9Deprecation_trace. cbv zeta.
  destruct (completion Noop modular) as [ [] | e ]; [ | apply wf_at_modular ].
  destruct (modular_record w modular); [ | apply wf_at_modular ].
  destruct (completion Noop legacy) as [ [] | e ];
    [ destruct (Nat.eqb _ 1) | ]; apply wf_at_legacy.
Qed.

Lemma createCheckV9Deprecation_wf (moduleNames : list string)
    (modular legacy : fn) (methodNameKey : string)
    (uniqueMessage : option string) (w : world) :
  wf w ->
  wf (final (createCheckV9Deprecation moduleNames modular legacy
               methodNameKey uniqueMessage) w).
Proof.
  intros Hwf. unfold final.
  rewrite (createCheckV9Deprecation_trace _ _ _ _ _ w Hwf). cbv zeta.
  destruct (completion Noop modular) as [ [] | e ];
    [ | apply wf_at_checker_stop; exact Hwf ].
  destruct (payloads Noop modular); [ | apply wf_at_checker_stop; exact Hwf ].
  destruct (completion _ legacy) as [ [] | e ];
    [ destruct (Nat.eqb _ 1) | ]; apply wf_at_legacy.
Qed.

(** A run leaves in [console.warn] a function of the kind it found there:
    one that [mockRestore] takes out, or a [jest.fn()]. *)
Lemma checkV9Deprecation_restores (modular legacy : fn) (w : world) :
  first_spy_restores (final (checkV9Deprecation modular legacy) w)
  = first_spy_restores w.
Proof.
  unfold final. rewrite checkV9Deprecation_trace. cbv zeta.
  destruct (completion Noop modular) as [ [] | e ]; [ | apply restores_at_modular ].
  destruct (modular_record w modular); [ | apply restores_at_modular ].
  destruct (completion Noop legacy) as [ [] | e ];
    [ destruct (Nat.eqb _ 1) | ]; apply restores_at_legacy.
Qed.

Lemma createCheckV9Deprecation_restores (moduleNames : list string)
    (modular legacy : fn) (methodNameKey : string)
    (uniqueMessage : option string) (w : world) :
  wf w ->
  first_spy_restores (final (createCheckV9Deprecation moduleNames modular legacy
                               methodNameKey uniqueMessage) w)
  = first_spy_restores w.
Proof.
  intros Hwf. unfold final.
  rewrite (createCheckV9Deprecation_trace _ _ _ _ _ w Hwf). cbv zeta.
  destruct (completion Noop modular) as [ [] | e ];
    [ | apply restores_at_checker_stop; exact Hwf ].
  destruct (payloads Noop modular); [ | apply restores_at_checker_stop; exact Hwf ].
  destruct (completion _ legacy) as [ [] | e ];
    [ destruct (Nat.eqb _ 1) | ]; apply restores_at_legacy.
Qed.

(** The verdict of [checkV9Deprecation] depends on the environment only
    through the kind of function that [console.warn] holds. *)
Lemma checkV9Deprecation_outcome (modular legacy : fn) (w1 w2 : world) :
  first_spy_restores w1 = first_spy_restores w2 ->
  outcome (checkV9Deprecation modular legacy) w1
  = outcome (checkV9Deprecation modular legacy) w2.
Proof.
  intros Hkind. unfold outcome. rewrite !checkV9Deprecation_trace. cbv zeta.
  unfold modular_record. rewrite Hkind.
  each_exit; reflexivity.
Qed.

(** The verdict of the checker does not depend on the environment. *)
Lemma createCheckV9Deprecation_outcome (moduleNames : list string)
    (modular legacy : fn) (methodNameKey : string)
    (uniqueMessage : option string) (w1 w2 : world) :
  wf w1 -> wf w2 ->
  outcome (createCheckV9Deprecation moduleNames modular legacy
             methodNameKey uniqueMessage) w1
  = outcome (createCheckV9Deprecation moduleNames modular legacy
               methodNameKey uniqueMessage) w2.
Proof.
  intros Hwf1 Hwf2. unfold outcome.
  rewrite (createCheckV9Deprecation_trace _ _ _ _ _ w1 Hwf1),
    (createCheckV9Deprecation_trace _ _ _ _ _ w2 Hwf2).
  cbv zeta. each_exit; reflexivity.
Qed.

Lemma completion_Noop_thrown (f : fn) (e : failure) :
  completion Noop f = Err e -> exists s, e = Thrown s.
Proof.
  induction f as [ | s | p k IHk | p k h IHk IHh ] using fn_induction;
    simpl; intros H.
  - discriminate.
  - injection H as <-. eexists; reflexivity.
  - exact (IHk H).
  - exact (IHk H).
Qed.

(** A function whose payloads all contain the expected message runs under
    the interceptor as it runs under a silent spy. *)
Lemma matching_payloads (mn : option string) (key inst : string)
    (u : option string) (f : fn) :
  Forall (fun q => includes (createMessage mn key inst u) q = true)
         (payloads Noop f) ->
  payloads (ExpectMatch mn key inst u) f = payloads Noop f
  /\ completion (ExpectMatch mn key inst u) f = completion Noop f.
Proof.
  induction f as [ | s | p k IHk | p k h IHk IHh ] using fn_induction;
    simpl; intros Hall; try (split; reflexivity);
    apply Forall_cons in Hall as [ Hp Hk ];
    unfold expect_toMatch; rewrite Hp;
    destruct (IHk Hk) as [ -> -> ]; split; reflexivity.
Qed.

(** Matching warnings first, then one that does not match and is not
    caught: the function ends there, with the failure of [toMatch]. *)
Lemma first_mismatch (mn : option string) (key inst : string)
    (u : option string) (qs : list (string * option fn)) (p : string)
    (rest : fn) :
  Forall (fun q => includes (createMessage mn key inst u) (fst q) = true) qs ->
  includes (createMessage mn key inst u) p = false ->
  completion (ExpectMatch mn key inst u) (warns_then qs (Warn p rest None))
  = Err (ToMatchFailed p (createMessage mn key inst u)).
Proof.
  intros Hqs Hp.
  induction Hqs as [ | q qs Hq _ IH ]; simpl; unfold expect_toMatch.
  - rewrite Hp. reflexivity.
  - rewrite Hq. exact IH.
Qed.

(** A function that catches nothing ends well under the interceptor only
    when it ends well under a silent spy and all its payloads contain the
    expected message. *)
Lemma lets_through_completion (mn : option string) (key inst : string)
    (u : option string) (f : fn) :
  lets_through f = true ->
  completion (ExpectMatch mn key inst u) f = Ok tt ->
  completion Noop f = Ok tt
  /\ Forall (fun q => includes (createMessage mn key inst u) q = true)
            (payloads Noop f).
Proof.
  induction f as [ | s | p k IHk | p k h IHk IHh ] using fn_induction;
    simpl; intros Hlets Hok.
  - split; [ reflexivity | constructor ].
  - discriminate Hok.
  - unfold expect_toMatch in Hok.
    destruct (includes (createMessage mn key inst u) p) eqn:Hp; [ | discriminate Hok ].
    destruct (IHk Hlets Hok) as [ Hc Hall ].
    split; [ exact Hc | constructor; assumption ].
  - discriminate Hlets.
Qed.

(** The checker on a legacy function that warns once and returns: the
    verdict is that of [toMatch] on the payload and the expected message. *)
Lemma checker_single_warning (moduleNames : list string) (modular : fn)
    (methodNameKey : string) (uniqueMessage : option string) (p : string)
    (w : world) :
  wf w ->
  completion Noop modular = Ok tt ->
  payloads Noop modular = [] ->
  outcome (createCheckV9Deprecation moduleNames modular (Warn p Return None)
             methodNameKey uniqueMessage) w
  = expect_toMatch p (createMessage (moduleNames !! 0) methodNameKey
                        (js_or (moduleNames !! 1) "default") uniqueMessage).
Proof.
  intros Hwf Hret Hsilent. unfold outcome.
  rewrite (createCheckV9Deprecation_trace _ _ _ _ _ w Hwf). cbv zeta.
  rewrite Hret, Hsilent. unfold interceptor. simpl.
  destruct (expect_toMatch p _) as [ [] | e ]; reflexivity.
Qed.

Lemma prefix_append (a b : string) :
  String.prefix a b = true <-> exists post : string, b = (a ++ post)%string.
Proof.
  revert b. induction a as [ | c a IH ]; intros b.
  - split; [ intros _; exists b; reflexivity | intros _; destruct b; reflexivity ].
  - destruct b as [ | d b ]; cbn [String.prefix String.append].
    + split; [ discriminate | intros (post & H); discriminate H ].
    + destruct (Ascii.ascii_dec c d) as [ -> | Hne ].
      * rewrite IH. split; intros (post & H); exists post.
        -- rewrite H. reflexivity.
        -- injection H as H. exact H.
      * split; [ discriminate | intros (post & H) ].
        injection H as Hd _. congruence.
Qed.

Lemma includes_substring (needle hay : string) :
  includes needle hay = true
  <-> exists pre post : string, hay = (pre ++ needle ++ post)%string.
Proof.
  induction hay as [ | c hay IH ]; cbn [includes].
  - rewrite orb_false_r, prefix_append. split.
    + intros (post & H). exists "", post. exact H.
    + intros ([ | d pre ] & post & H); [ exists post; exact H | discriminate H ].
  - rewrite orb_true_iff, prefix_append, IH. split.
    + intros [ (post & H) | (pre & post & H) ].
      * exists "", post. exact H.
      * exists (String c pre), post. rewrite H. reflexivity.
    + intros ([ | d pre ] & post & H).
      * left. exists post. exact H.
      * right. injection H as _ H. exists pre, post. exact H.
Qed.

Lemma jest_fn_installed (w : world) :
  first_spy_restores w = false -> console_warn w = Spy (first_spy w).
Proof.
  unfold first_spy_restores, first_spy.
  destruct (console_warn w); [ discriminate | reflexivity ].
Qed.

Lemma modular_record_nil (w : world) (modular : fn) :
  first_spy_restores w = true \/ payloads Noop modular = [] ->
  modular_record w modular = [].
Proof.
  unfold modular_record. intros [ -> | Hsilent ]; [ reflexivity | ].
  destruct (first_spy_restores w); [ reflexivity | exact Hsilent ].
Qed.


(** ** The claims *)

(** C1: once either harness has made the legacy call, it compares the number
    of calls recorded by the spy then installed in [console.warn] with one:
    the run passes when that number is one, and any other number (zero, or
    more than one) makes the run fail on the spot with the failure of
    [toHaveBeenCalledTimes(1)]. *)
Theorem legacy_call_asserted_exactly_once
    (moduleNames : list string) (modular legacy : fn) (methodNameKey : string)
    (uniqueMessage : option string) (w : world) :
  wf w ->
  (forall (w' : world) (consoleWarnSpy2 : nat),
     checkV9Deprecation_legacy_call modular legacy w = (w', Ok consoleWarnSpy2) ->
     console_warn w' = Spy consoleWarnSpy2 /\
     outcome (checkV9Deprecation modular legacy) w
     = if Nat.eqb (callCount consoleWarnSpy2 w') 1 then Ok tt
       else Err (CalledTimesFailed 1 (callCount consoleWarnSpy2 w')))
  /\
  (forall (w' : world) (consoleWarnSpy2 : nat),
     createCheckV9Deprecation_legacy_call
       moduleNames modular legacy methodNameKey uniqueMessage w
     = (w', Ok consoleWarnSpy2) ->
     console_warn w' = Spy consoleWarnSpy2 /\
     outcome (createCheckV9Deprecation
                moduleNames modular legacy methodNameKey uniqueMessage) w
     = if Nat.eqb (callCount consoleWarnSpy2 w') 1 then Ok tt
       else Err (CalledTimesFailed 1 (callCount consoleWarnSpy2 w'))).
Proof.
  intros Hwf. split; intros w' spy2 Hcall.
  - split.
    + rewrite checkV9Deprecation_legacy_call_trace in Hcall. cbv zeta in Hcall.
      destruct (completion Noop modular) as [ [] | ? ]; [ | discriminate ].
      destruct (modular_record w modular); [ | discriminate ].
      destruct (completion Noop legacy) as [ [] | ? ]; [ | discriminate ].
      injection Hcall as <- <-. reflexivity.
    + unfold outcome. rewrite checkV9Deprecation_split, (bind_ok _ _ _ _ _ Hcall).
      unfold bind, expect_toHaveBeenCalledTimes.
      destruct (Nat.eqb (callCount spy2 w') 1); reflexivity.
  - split.
    + rewrite (createCheckV9Deprecation_legacy_call_trace _ _ _ _ _ w Hwf) in Hcall.
      cbv zeta in Hcall.
      destruct (completion Noop modular) as [ [] | ? ]; [ | discriminate ].
      destruct (payloads Noop modular); [ | discriminate ].
      destruct (completion _ legacy) as [ [] | ? ]; [ | discriminate ].
      injection Hcall as <- <-. reflexivity.
    + unfold outcome.
      rewrite createCheckV9Deprecation_split, (bind_ok _ _ _ _ _ Hcall).
      unfold bind, expect_toHaveBeenCalledTimes.
      destruct (Nat.eqb (callCount spy2 w') 1); reflexivity.
Qed.

(** C2: [checkV9Deprecation] lets a modular call that warns pass, where the
    claim wants a failure: with a modular function that calls
    [console.warn] once and a legacy function that calls it once, the run
    returns normally. The checker of [createCheckV9Deprecation] fails on the
    same two functions, at [not.toHaveBeenCalled]. *)
Theorem checkV9Deprecation_misses_modular_warning :
  outcome (checkV9Deprecation (Warn "modular warns" Return None)
                              (Warn "legacy warns" Return None)) pristine
  = Ok tt
  /\
  outcome (createCheckV9Deprecation ["database"]
             (Warn "modular warns" Return None)
             (Warn "legacy warns" Return None) "onValue" None) pristine
  = Err (NotCalledFailed 1).
Proof.
  split; reflexivity.
Qed.

(** C3: in the legacy phase of the checker made from [moduleNames], a
    warning whose payload does not contain
    [createMessage(moduleNames[0], methodNameKey, instanceName, uniqueMessage)]
    fails the run on the spot with the failure of [toMatch], after any
    number of warnings that do contain it; and when every payload of the
    legacy function contains that message, no run fails at [toMatch]. *)
Theorem legacy_payloads_matched_against_createMessage
    (moduleNames : list string) (modular : fn) (methodNameKey : string)
    (uniqueMessage : option string) (w : world) :
  let message :=
    createMessage (moduleNames !! 0) methodNameKey
                  (js_or (moduleNames !! 1) "default") uniqueMessage in
  wf w ->
  completion Noop modular = Ok tt ->
  payloads Noop modular = [] ->
  (forall (qs : list (string * option fn)) (p : string) (rest : fn),
     Forall (fun q => includes message (fst q) = true) qs ->
     includes message p = false ->
     outcome (createCheckV9Deprecation moduleNames modular
                (warns_then qs (Warn p rest None)) methodNameKey uniqueMessage) w
     = Err (ToMatchFailed p message))
  /\
  (forall (legacy : fn),
     Forall (fun q => includes message q = true) (payloads Noop legacy) ->
     forall (received expected : string),
       outcome (createCheckV9Deprecation moduleNames modular legacy
                  methodNameKey uniqueMessage) w
       <> Err (ToMatchFailed received expected)).
Proof.
  intros message Hwf Hret Hsilent. split.
  - intros qs p rest Hqs Hp. unfold outcome.
    rewrite (createCheckV9Deprecation_trace _ _ _ _ _ w Hwf). cbv zeta.
    rewrite Hret, Hsilent. unfold interceptor.
    rewrite (first_mismatch _ _ _ _ qs p rest Hqs Hp). reflexivity.
  - intros legacy Hall received expected. unfold outcome.
    rewrite (createCheckV9Deprecation_trace _ _ _ _ _ w Hwf). cbv zeta.
    rewrite Hret, Hsilent. unfold interceptor.
    destruct (matching_payloads _ _ _ _ legacy Hall) as [ -> Hc ].
    rewrite Hc.
    destruct (completion Noop legacy) as [ [] | e ] eqn:He.
    + destruct (Nat.eqb (length (payloads Noop legacy)) 1); simpl; discriminate.
    + destruct (completion_Noop_thrown legacy e He) as [ s -> ].
      simpl. discriminate.
Qed.



(** C6: a second run of either harness, started in the environment the
    first run left behind, has the outcome of the first run. *)
Theorem second_run_same_outcome
    (moduleNames : list string) (modular legacy : fn) (methodNameKey : string)
    (uniqueMessage : option string) (w : world) :
  wf w ->
  outcome (checkV9Deprecation modular legacy)
          (final (checkV9Deprecation modular legacy) w)
  = outcome (checkV9Deprecation modular legacy) w
  /\
  outcome (createCheckV9Deprecation moduleNames modular legacy
             methodNameKey uniqueMessage)
          (final (createCheckV9Deprecation moduleNames modular legacy
                    methodNameKey uniqueMessage) w)
  = outcome (createCheckV9Deprecation moduleNames modular legacy
               methodNameKey uniqueMessage) w.
Proof.
  intros Hwf. split.
  - apply checkV9Deprecation_outcome. apply checkV9Deprecation_restores.
  - apply createCheckV9Deprecation_outcome; [ | exact Hwf ].
    apply createCheckV9Deprecation_wf. exact Hwf.
Qed.

(** C8: [createCheckV9Deprecation moduleNames] is a function of the modular
    function, the legacy function, the method key and the optional unique
    message, and the message it expects of a legacy warning is
    [createMessage] of [moduleNames[0]] as module name, the method key,
    [moduleNames[1]] as instance name, and the unique message. *)
Theorem checker_bound_to_module_and_instance
    (moduleName instanceName : string) (others : list string) (modular : fn)
    (methodNameKey : string) (uniqueMessage : option string) (p : string)
    (w : world) :
  wf w ->
  instanceName <> "" ->
  completion Noop modular = Ok tt ->
  payloads Noop modular = [] ->
  let checker : CheckV9DeprecationFunction :=
    createCheckV9Deprecation (moduleName :: instanceName :: others) in
  let message :=
    createMessage (Some moduleName) methodNameKey instanceName uniqueMessage in
  outcome (checker modular (Warn p Return None) methodNameKey uniqueMessage) w
  = if includes message p then Ok tt else Err (ToMatchFailed p message).
Proof.
  intros Hwf Hinst Hret Hsilent checker message. unfold checker.
  rewrite checker_single_warning by assumption.
  unfold message. simpl.
  destruct instanceName as [ | c rest ]; [ contradiction | reflexivity ].
Qed.

(** C9: when [moduleNames] has no second element, or an empty one, the
    checker expects the message that [createMessage] makes for the instance
    name ['default']. *)
Theorem instance_name_defaults
    (moduleNames : list string) (modular : fn) (methodNameKey : string)
    (uniqueMessage : option string) (p : string) (w : world) :
  wf w ->
  moduleNames !! 1 = None \/ moduleNames !! 1 = Some "" ->
  completion Noop modular = Ok tt ->
  payloads Noop modular = [] ->
  let message :=
    createMessage (moduleNames !! 0) methodNameKey "default" uniqueMessage in
  outcome (createCheckV9Deprecation moduleNames modular (Warn p Return None)
             methodNameKey uniqueMessage) w
  = if includes message p then Ok tt else Err (ToMatchFailed p message).
Proof.
  intros Hwf Hsecond Hret Hsilent message.
  rewrite checker_single_warning by assumption.
  unfold message. destruct Hsecond as [ -> | -> ]; reflexivity.
Qed.

(** C10, as the code has it: when [console.warn] holds the original
    function or a spy made by [jest.spyOn] at the start, the first spy of
    [checkV9Deprecation] is taken out of [console.warn] before the modular
    function is called: when that call returns, whatever it warned,
    [console.warn] holds the original function, the spy has recorded no
    call, [not.toHaveBeenCalled] passes, and the run does not fail at that
    assertion. *)
Theorem checkV9Deprecation_first_assertion_always_passes
    (modular : fn) (w : world) :
  first_spy_restores w = true ->
  console_warn
    (final (const consoleWarnSpy :=
              (const spy := spyOn_console_warn in mockImplementation spy Noop) in
            mockRestore consoleWarnSpy) w)
  = Original
  /\
  (forall (w' : world) (consoleWarnSpy : nat),
     checkV9Deprecation_modular_call modular w = (w', Ok consoleWarnSpy) ->
     console_warn w' = Original /\
     callCount consoleWarnSpy w' = 0 /\
     expect_not_toHaveBeenCalled consoleWarnSpy w' = (w', Ok tt))
  /\
  (forall (legacy : fn) (received : nat),
     outcome (checkV9Deprecation modular legacy) w
     <> Err (NotCalledFailed received)).
Proof.
  intros Hr. split; [ | split ].
  - unfold final.
    rewrite (bind_ok _ _ _ _ _ (spy_setup_store Noop w)), restore_first_spy.
    unfold console_warn_after_modular. rewrite Hr. reflexivity.
  - intros w' spy Hcall.
    rewrite checkV9Deprecation_modular_call_trace in Hcall.
    destruct (completion Noop modular) as [ [] | ? ]; [ | discriminate ].
    injection Hcall as <- <-.
    pose proof (callCount_modular_record modular w (console_warn_after_modular w))
      as Hcount.
    rewrite (modular_record_nil w modular (or_introl Hr)) in Hcount |- *.
    simpl in Hcount.
    split; [ unfold console_warn_after_modular; rewrite Hr; reflexivity | ].
    split; [ exact Hcount | ].
    unfold expect_not_toHaveBeenCalled. rewrite Hcount. reflexivity.
  - intros legacy received. unfold outcome.
    rewrite checkV9Deprecation_trace. cbv zeta.
    rewrite (modular_record_nil w modular (or_introl Hr)).
    destruct (completion Noop modular) as [ [] | e ] eqn:Hm.
    + destruct (completion Noop legacy) as [ [] | e ] eqn:Hl.
      * destruct (Nat.eqb (length (payloads Noop legacy)) 1); simpl; discriminate.
      * destruct (completion_Noop_thrown legacy e Hl) as [ s -> ].
        simpl. discriminate.
    + destruct (completion_Noop_thrown modular e Hm) as [ s -> ].
      simpl. discriminate.
Qed.

(** ** More of what the two harnesses do *)

(** X1: the checker fails a modular function that returns after calling
    [console.warn]: the run ends at [not.toHaveBeenCalled] with the number
    of calls, before the legacy function is called, and leaves the first
    spy in [console.warn] with the modular calls on record. *)
Theorem checker_rejects_warning_modular_function
    (moduleNames : list string) (modular legacy : fn) (methodNameKey : string)
    (uniqueMessage : option string) (w : world) :
  wf w ->
  completion Noop modular = Ok tt ->
  payloads Noop modular <> [] ->
  let run :=
    createCheckV9Deprecation moduleNames modular legacy methodNameKey uniqueMessage in
  outcome run w = Err (NotCalledFailed (length (payloads Noop modular)))
  /\ console_warn (final run w) = Spy (first_spy w)
  /\ mocks (final run w) !! first_spy w
     = Some {| calls := payloads Noop modular; mockImpl := Unset;
               fromSpyOn := first_spy_restores w |}.
Proof.
  intros Hwf Hret Hwarned run. unfold run, outcome, final.
  rewrite (createCheckV9Deprecation_trace _ _ _ _ _ w Hwf). cbv zeta.
  rewrite Hret.
  destruct (payloads Noop modular) as [ | p ps ]; [ contradiction | ].
  simpl fst. simpl snd. split; [ reflexivity | ]. split; [ reflexivity | ].
  simpl mocks. apply store_at_modular_lookup.
  apply first_spy_allocated. exact Hwf.
Qed.

(** X2: an exception of the modular function ends the run of either harness
    with that exception. [checkV9Deprecation] then leaves the original
    function in [console.warn] when its first spy could be restored, and
    the [jest.fn()] that was there when it could not; the checker leaves
    its first spy there. *)
Theorem modular_exception_propagates
    (moduleNames : list string) (modular legacy : fn) (methodNameKey : string)
    (uniqueMessage : option string) (e : failure) (w : world) :
  wf w ->
  completion Noop modular = Err e ->
  (outcome (checkV9Deprecation modular legacy) w = Err e
   /\ console_warn (final (checkV9Deprecation modular legacy) w)
      = if first_spy_restores w then Original else console_warn w)
  /\
  (outcome (createCheckV9Deprecation moduleNames modular legacy
              methodNameKey uniqueMessage) w = Err e
   /\ console_warn (final (createCheckV9Deprecation moduleNames modular legacy
                             methodNameKey uniqueMessage) w)
      = Spy (first_spy w)).
Proof.
  intros Hwf Hthrow. unfold outcome, final.
  rewrite checkV9Deprecation_trace,
    (createCheckV9Deprecation_trace _ _ _ _ _ w Hwf).
  cbv zeta. rewrite Hthrow. simpl.
  split; [ | split; reflexivity ].
  split; [ reflexivity | ].
  unfold console_warn_after_modular.
  destruct (first_spy_restores w) eqn:Hr; [ reflexivity | ].
  symmetry. apply jest_fn_installed. exact Hr.
Qed.

(** X3: when the modular phase has passed, a legacy call that ends in an
    exception (its own, or a failure of the interceptor that it lets
    through) ends the run of either harness with that exception, whatever
    the function warned before. The modular phase of [checkV9Deprecation]
    passes when the modular function returns and either the first spy could
    be restored or the function did not warn. *)
Theorem legacy_exception_propagates
    (moduleNames : list string) (modular legacy : fn) (methodNameKey : string)
    (uniqueMessage : option string) (e : failure) (w : world) :
  wf w ->
  completion Noop modular = Ok tt ->
  (first_spy_restores w = true \/ payloads Noop modular = [] ->
   completion Noop legacy = Err e ->
   outcome (checkV9Deprecation modular legacy) w = Err e)
  /\
  (payloads Noop modular = [] ->
   completion (interceptor moduleNames methodNameKey uniqueMessage) legacy = Err e ->
   outcome (createCheckV9Deprecation moduleNames modular legacy
              methodNameKey uniqueMessage) w = Err e).
Proof.
  intros Hwf Hret. unfold outcome. split.
  - intros Hpast Hthrow. rewrite checkV9Deprecation_trace. cbv zeta.
    rewrite Hret, (modular_record_nil w modular Hpast), Hthrow. reflexivity.
  - intros Hsilent Hthrow.
    rewrite (createCheckV9Deprecation_trace _ _ _ _ _ w Hwf). cbv zeta.
    rewrite Hret, Hsilent, Hthrow. reflexivity.
Qed.

(** X4: [checkV9Deprecation] passes exactly when both functions return, the
    legacy function has called [console.warn] once, and the modular function
    did not warn or the first spy could be restored before it ran. With the
    original function or a [jest.spyOn] spy in [console.warn] at the start,
    what the modular function warned plays no part; what the legacy payload
    says never does. *)
Theorem checkV9Deprecation_passes_iff (modular legacy : fn) (w : world) :
  outcome (checkV9Deprecation modular legacy) w = Ok tt
  <-> completion Noop modular = Ok tt
      /\ (first_spy_restores w = true \/ payloads Noop modular = [])
      /\ completion Noop legacy = Ok tt
      /\ length (payloads Noop legacy) = 1.
Proof.
  unfold outcome. rewrite checkV9Deprecation_trace. cbv zeta.
  destruct (completion Noop modular) as [ [] | e ].
  2: { simpl. split; [ discriminate | intros (H & _); discriminate H ]. }
  assert (Hrecord : modular_record w modular = []
                    <-> first_spy_restores w = true \/ payloads Noop modular = []).
  { split; [ | apply modular_record_nil ].
    unfold modular_record. destruct (first_spy_restores w); [ left | right ]; auto. }
  destruct (modular_record w modular) as [ | q qs ].
  2: { simpl. split; [ discriminate | intros (_ & H & _) ].
       apply Hrecord in H. discriminate H. }
  destruct (completion Noop legacy) as [ [] | e ].
  2: { simpl. split; [ discriminate | intros (_ & _ & H & _); discriminate H ]. }
  destruct (Nat.eqb_spec (length (payloads Noop legacy)) 1) as [ Heq | Hne ]; simpl.
  - split; [ intros _ | reflexivity ].
    split; [ reflexivity | ]. split; [ apply Hrecord; reflexivity | ].
    split; [ reflexivity | exact Heq ].
  - split; [ discriminate | intros (_ & _ & _ & H); contradiction ].
Qed.

(** X5: on a legacy function that catches nothing, the checker passes
    exactly when the modular function returns without a warning and the
    legacy function returns after one warning whose payload contains the
    expected message. *)
Theorem checker_passes_iff
    (moduleNames : list string) (modular legacy : fn) (methodNameKey : string)
    (uniqueMessage : option string) (w : world) :
  wf w ->
  lets_through legacy = true ->
  let message :=
    createMessage (moduleNames !! 0) methodNameKey
                  (js_or (moduleNames !! 1) "default") uniqueMessage in
  outcome (createCheckV9Deprecation moduleNames modular legacy
             methodNameKey uniqueMessage) w = Ok tt
  <-> completion Noop modular = Ok tt
      /\ payloads Noop modular = []
      /\ completion Noop legacy = Ok tt
      /\ exists p : string,
           payloads Noop legacy = [p] /\ includes message p = true.
Proof.
  intros Hwf Hlets message. unfold outcome.
  rewrite (createCheckV9Deprecation_trace _ _ _ _ _ w Hwf). cbv zeta.
  unfold interceptor. fold message.
  destruct (completion Noop modular) as [ [] | e ].
  2: { simpl. split; [ discriminate | intros (H & _); discriminate H ]. }
  destruct (payloads Noop modular) as [ | q qs ].
  2: { simpl. split; [ discriminate | intros (_ & H & _); discriminate H ]. }
  split.
  - intros Hok.
    destruct (completion (ExpectMatch _ _ _ _) legacy) as [ [] | e ] eqn:Hc;
      [ | discriminate Hok ].
    destruct (lets_through_completion _ _ _ _ legacy Hlets Hc) as [ Hret Hall ].
    destruct (matching_payloads _ _ _ _ legacy Hall) as [ Hp _ ].
    fold message in Hp, Hall. rewrite Hp in Hok.
    destruct (Nat.eqb_spec (length (payloads Noop legacy)) 1) as [ Heq | Hne ];
      [ | discriminate Hok ].
    split; [ reflexivity | ]. split; [ reflexivity | ]. split; [ exact Hret | ].
    destruct (payloads Noop legacy) as [ | p [ | p' ps ] ]; try discriminate Heq.
    exists p. split; [ reflexivity | ].
    apply Forall_cons in Hall as [ Hm _ ]. exact Hm.
  - intros (_ & _ & Hret & p & Hp & Hm).
    assert (Hall : Forall (fun q => includes message q = true) (payloads Noop legacy)).
    { rewrite Hp. repeat constructor. exact Hm. }
    destruct (matching_payloads _ _ _ _ legacy Hall) as [ Hp' Hc ].
    fold message in Hp', Hc. rewrite Hc, Hret, Hp', Hp. reflexivity.
Qed.

(** X6: the checker does not report a mismatch that the legacy function
    catches: the run goes on as the function's handler does, and the
    verdict is that of the call count alone, the caught call included. *)
Theorem caught_mismatch_not_reported
    (moduleNames : list string) (modular next handler : fn)
    (methodNameKey : string) (uniqueMessage : option string) (p : string)
    (w : world) :
  let i := interceptor moduleNames methodNameKey uniqueMessage in
  let message :=
    createMessage (moduleNames !! 0) methodNameKey
                  (js_or (moduleNames !! 1) "default") uniqueMessage in
  wf w ->
  completion Noop modular = Ok tt ->
  payloads Noop modular = [] ->
  includes message p = false ->
  completion i handler = Ok tt ->
  outcome (createCheckV9Deprecation moduleNames modular
             (Warn p next (Some handler)) methodNameKey uniqueMessage) w
  = if Nat.eqb (length (payloads i handler)) 0 then Ok tt
    else Err (CalledTimesFailed 1 (S (length (payloads i handler)))).
Proof.
  intros i message Hwf Hret Hsilent Hp Hhandler. unfold outcome.
  rewrite (createCheckV9Deprecation_trace _ _ _ _ _ w Hwf). cbv zeta.
  rewrite Hret, Hsilent. fold i.
  unfold i at 1 3 5, interceptor. simpl completion. simpl payloads.
  fold message. unfold expect_toMatch. rewrite Hp.
  fold (interceptor moduleNames methodNameKey uniqueMessage). fold i.
  rewrite Hhandler. simpl length.
  destruct (length (payloads i handler)); reflexivity.
Qed.

(** X7: on a legacy function that catches nothing, the checker is the
    stricter of the two harnesses: a pair of functions that it passes,
    [checkV9Deprecation] passes as well. *)
Theorem checker_stricter_than_checkV9Deprecation
    (moduleNames : list string) (modular legacy : fn) (methodNameKey : string)
    (uniqueMessage : option string) (w w' : world) :
  wf w ->
  lets_through legacy = true ->
  outcome (createCheckV9Deprecation moduleNames modular legacy
             methodNameKey uniqueMessage) w = Ok tt ->
  outcome (checkV9Deprecation modular legacy) w' = Ok tt.
Proof.
  intros Hwf Hlets. unfold outcome.
  rewrite (createCheckV9Deprecation_trace _ _ _ _ _ w Hwf),
    checkV9Deprecation_trace.
  cbv zeta. unfold interceptor.
  destruct (completion Noop modular) as [ [] | e ]; [ | discriminate ].
  destruct (payloads Noop modular) as [ | q qs ] eqn:Hsilent; [ | discriminate ].
  rewrite (modular_record_nil w' modular (or_intror Hsilent)).
  destruct (completion (ExpectMatch _ _ _ _) legacy) as [ [] | e ] eqn:Hc;
    [ | discriminate ].
  destruct (lets_through_completion _ _ _ _ legacy Hlets Hc) as [ Hret Hall ].
  destruct (matching_payloads _ _ _ _ legacy Hall) as [ Hp _ ].
  rewrite Hp, Hret.
  destruct (Nat.eqb (length (payloads Noop legacy)) 1); [ reflexivity | discriminate ].
Qed.

(** X8: when the modular function does not warn and every payload of the
    legacy function contains the expected message, the two harnesses give
    the same verdict. This is so for every function when the formatter
    returns the empty string: the check of the payload then checks
    nothing. *)
Theorem checker_agrees_with_checkV9Deprecation
    (moduleNames : list string) (modular legacy : fn) (methodNameKey : string)
    (uniqueMessage : option string) (w : world) :
  let message :=
    createMessage (moduleNames !! 0) methodNameKey
                  (js_or (moduleNames !! 1) "default") uniqueMessage in
  wf w ->
  payloads Noop modular = [] ->
  message = "" \/ Forall (fun q => includes message q = true) (payloads Noop legacy) ->
  outcome (createCheckV9Deprecation moduleNames modular legacy
             methodNameKey uniqueMessage) w
  = outcome (checkV9Deprecation modular legacy) w.
Proof.
  intros message Hwf Hsilent Hmatch.
  assert (Hall : Forall (fun q => includes message q = true) (payloads Noop legacy)).
  { destruct Hmatch as [ -> | Hall ]; [ | exact Hall ].
    apply Forall_forall. intros q _. destruct q; reflexivity. }
  unfold outcome.
  rewrite (createCheckV9Deprecation_trace _ _ _ _ _ w Hwf),
    checkV9Deprecation_trace.
  cbv zeta. unfold interceptor.
  rewrite (modular_record_nil w modular (or_intror Hsilent)), Hsilent.
  destruct (matching_payloads _ _ _ _ legacy Hall) as [ Hp Hc ].
  fold message in Hp, Hc. rewrite Hp, Hc.
  destruct (completion Noop modular) as [ [] | e ]; [ | reflexivity ].
  destruct (completion Noop legacy) as [ [] | e ]; [ | reflexivity ].
  destruct (Nat.eqb (length (payloads Noop legacy)) 1); reflexivity.
Qed.

(** X9: runs of the two harnesses can follow one another in any order: the
    verdict of a run is the same after a run of the other harness, on
    whatever functions, as in the environment that run started from. *)
Theorem harness_runs_do_not_interfere
    (moduleNames moduleNames' : list string) (modular legacy before after : fn)
    (methodNameKey methodNameKey' : string)
    (uniqueMessage uniqueMessage' : option string) (w : world) :
  wf w ->
  outcome (createCheckV9Deprecation moduleNames modular legacy
             methodNameKey uniqueMessage)
          (final (checkV9Deprecation before after) w)
  = outcome (createCheckV9Deprecation moduleNames modular legacy
               methodNameKey uniqueMessage) w
  /\
  outcome (checkV9Deprecation modular legacy)
          (final (createCheckV9Deprecation moduleNames' before after
                    methodNameKey' uniqueMessage') w)
  = outcome (checkV9Deprecation modular legacy) w
  /\
  outcome (createCheckV9Deprecation moduleNames modular legacy
             methodNameKey uniqueMessage)
          (final (createCheckV9Deprecation moduleNames' before after
                    methodNameKey' uniqueMessage') w)
  = outcome (createCheckV9Deprecation moduleNames modular legacy
               methodNameKey uniqueMessage) w.
Proof.
  intros Hwf. split; [ | split ].
  - apply createCheckV9Deprecation_outcome; [ | exact Hwf ].
    apply checkV9Deprecation_wf.
  - apply checkV9Deprecation_outcome.
    apply createCheckV9Deprecation_restores. exact Hwf.
  - apply createCheckV9Deprecation_outcome; [ | exact Hwf ].
    apply createCheckV9Deprecation_wf. exact Hwf.
Qed.

(** X10: a mock function that is in [console.warn] when a run starts is
    taken as the first spy of the run. When [jest.spyOn] made it,
    [checkV9Deprecation] always leaves it reset (no recorded calls, no
    implementation) and out of [console.warn], and so does the checker when
    its modular phase passes. When it is a [jest.fn()], [mockRestore] does
    not take it out: it serves as second spy as well, it is in
    [console.warn] on every exit of either harness, and a passing run leaves
    it without recorded calls and without the implementation it had. *)
Theorem installed_mock_is_taken_over
    (moduleNames : list string) (modular legacy : fn) (methodNameKey : string)
    (uniqueMessage : option string) (w : world) (id : nat) (m : mockFn) :
  console_warn w = Spy id ->
  mocks w !! id = Some m ->
  (fromSpyOn m = true ->
   (mocks (final (checkV9Deprecation modular legacy) w) !! id
    = Some {| calls := []; mockImpl := Unset; fromSpyOn := true |}
    /\ console_warn (final (checkV9Deprecation modular legacy) w) <> Spy id)
   /\
   (completion Noop modular = Ok tt ->
    payloads Noop modular = [] ->
    let w' := final (createCheckV9Deprecation moduleNames modular legacy
                       methodNameKey uniqueMessage) w in
    mocks w' !! id = Some {| calls := []; mockImpl := Unset; fromSpyOn := true |}
    /\ console_warn w' <> Spy id))
  /\
  (fromSpyOn m = false ->
   console_warn (final (checkV9Deprecation modular legacy) w) = Spy id
   /\ console_warn (final (createCheckV9Deprecation moduleNames modular legacy
                             methodNameKey uniqueMessage) w) = Spy id
   /\ (outcome (checkV9Deprecation modular legacy) w = Ok tt ->
       mocks (final (checkV9Deprecation modular legacy) w) !! id
       = Some {| calls := []; mockImpl := Noop; fromSpyOn := false |})
   /\ (outcome (createCheckV9Deprecation moduleNames modular legacy
                  methodNameKey uniqueMessage) w = Ok tt ->
       mocks (final (createCheckV9Deprecation moduleNames modular legacy
                       methodNameKey uniqueMessage) w) !! id
       = Some {| calls := []; mockImpl := Unset; fromSpyOn := false |})).
Proof.
  intros Hid Hm.
  assert (Hwf : wf w).
  { unfold wf. rewrite Hid. exact (lookup_lt_Some _ _ _ Hm). }
  assert (Hfirst : first_spy w = id) by (unfold first_spy; rewrite Hid; reflexivity).
  assert (Hr : first_spy_restores w = fromSpyOn m).
  { unfold first_spy_restores. rewrite Hid, Hm. reflexivity. }
  pose proof (first_spy_allocated w Hwf) as Hlt.
  pose proof (first_spy_reset w Hlt) as Hspy.
  rewrite Hfirst in Hlt, Hspy.
  split.
  - intros Hmade. rewrite Hmade in Hr. rewrite Hr in Hspy.
    assert (Hnew : forall cs i, store_at_legacy w cs i !! id
                                = Some {| calls := []; mockImpl := Unset;
                                          fromSpyOn := true |}).
    { intros cs i. unfold store_at_legacy. rewrite Hr.
      rewrite lookup_app_l by exact Hlt. exact Hspy. }
    assert (Hother : Spy (second_spy w) <> Spy id).
    { unfold second_spy. rewrite Hr. intros Heq. injection Heq as Heq. lia. }
    split.
    + unfold final. rewrite checkV9Deprecation_trace. cbv zeta.
      rewrite (modular_record_nil w modular (or_introl Hr)).
      rewrite store_at_modular_nil. unfold console_warn_after_modular. rewrite Hr.
      destruct (completion Noop modular) as [ [] | e ].
      2: { simpl. split; [ exact Hspy | discriminate ]. }
      destruct (completion Noop legacy) as [ [] | e ];
        [ destruct (Nat.eqb (length (payloads Noop legacy)) 1) | ]; simpl;
        (split; [ apply Hnew | exact Hother ]).
    + intros Hret Hsilent w'. unfold w', final.
      rewrite (createCheckV9Deprecation_trace _ _ _ _ _ w Hwf). cbv zeta.
      rewrite Hret, Hsilent.
      destruct (completion _ legacy) as [ [] | e ];
        [ destruct (Nat.eqb (length (payloads _ legacy)) 1) | ]; simpl;
        (split; [ apply Hnew | exact Hother ]).
  - intros Hmade. rewrite Hmade in Hr.
    assert (Hsecond : second_spy w = id).
    { unfold second_spy. rewrite Hr. exact Hfirst. }
    pose proof (second_spy_lookup w) as Hlookup. rewrite Hsecond, Hr in Hlookup.
    split; [ | split; [ | split ] ].
    + unfold final. rewrite checkV9Deprecation_trace. cbv zeta.
      unfold console_warn_after_modular. rewrite Hr, Hfirst, Hsecond.
      each_exit; reflexivity.
    + unfold final.
      rewrite (createCheckV9Deprecation_trace _ _ _ _ _ w Hwf). cbv zeta.
      rewrite Hfirst, Hsecond. each_exit; reflexivity.
    + unfold final, outcome. rewrite checkV9Deprecation_trace. cbv zeta.
      destruct (completion Noop modular) as [ [] | e ]; [ | discriminate ].
      destruct (modular_record w modular); [ | discriminate ].
      destruct (completion Noop legacy) as [ [] | e ];
        [ destruct (Nat.eqb (length (payloads Noop legacy)) 1) | ]; simpl;
        intros Hok; try discriminate Hok.
      apply Hlookup.
    + unfold final, outcome.
      rewrite (createCheckV9Deprecation_trace _ _ _ _ _ w Hwf). cbv zeta.
      destruct (completion Noop modular) as [ [] | e ]; [ | discriminate ].
      destruct (payloads Noop modular); [ | discriminate ].
      destruct (completion _ legacy) as [ [] | e ];
        [ destruct (Nat.eqb (length (payloads _ legacy)) 1) | ]; simpl;
        intros Hok; try discriminate Hok.
      apply Hlookup.
Qed.

(** X11: a run of either harness, however it ends, leaves alone every mock
    function that existed before and is not the one in [console.warn]. *)
Theorem other_mocks_untouched
    (moduleNames : list string) (modular legacy : fn) (methodNameKey : string)
    (uniqueMessage : option string) (w : world) (id : nat) :
  wf w ->
  id < length (mocks w) ->
  Spy id <> console_warn w ->
  mocks (final (checkV9Deprecation modular legacy) w) !! id = mocks w !! id
  /\ mocks (final (createCheckV9Deprecation moduleNames modular legacy
                     methodNameKey uniqueMessage) w) !! id
     = mocks w !! id.
Proof.
  intros Hwf Hid Hne.
  split; unfold final.
  - rewrite checkV9Deprecation_trace. cbv zeta.
    destruct (completion Noop modular) as [ [] | e ];
      [ | apply store_at_modular_others; assumption ].
    destruct (modular_record w modular);
      [ | apply store_at_modular_others; assumption ].
    destruct (completion Noop legacy) as [ [] | e ];
      [ destruct (Nat.eqb (length (payloads Noop legacy)) 1) | ];
      apply store_at_legacy_others; assumption.
  - rewrite (createCheckV9Deprecation_trace _ _ _ _ _ w Hwf). cbv zeta.
    destruct (completion Noop modular) as [ [] | e ];
      [ | apply store_at_modular_others; assumption ].
    destruct (payloads Noop modular) as [ | q qs ];
      [ | apply store_at_modular_others; assumption ].
    destruct (completion _ legacy) as [ [] | e ];
      [ destruct (Nat.eqb (length (payloads _ legacy)) 1) | ];
      apply store_at_legacy_others; assumption.
Qed.

(** X12: a run never drops a mock function and makes two at most: the first
    spy when [console.warn] held the original function, and the second spy
    when the modular phase has passed and the first spy could be restored.
    A run that starts with a [jest.fn()] in [console.warn] makes none. *)
Theorem mock_functions_made_by_a_run
    (moduleNames : list string) (modular legacy : fn) (methodNameKey : string)
    (uniqueMessage : option string) (w : world) :
  wf w ->
  let first := match console_warn w with Original => 1 | Spy _ => 0 end in
  let second := if first_spy_restores w then 1 else 0 in
  length (mocks (final (checkV9Deprecation modular legacy) w))
  = length (mocks w) + first
    + match completion Noop modular with Ok _ => second | Err _ => 0 end
  /\
  length (mocks (final (createCheckV9Deprecation moduleNames modular legacy
                          methodNameKey uniqueMessage) w))
  = length (mocks w) + first
    + match completion Noop modular, payloads Noop modular with
      | Ok _, [] => second
      | _, _ => 0
      end.
Proof.
  intros Hwf first second.
  pose proof (store_after_modular_length w) as Hlen. fold first in Hlen.
  assert (Hstop : forall cs, length (store_at_modular w cs) = length (mocks w) + first).
  { intros cs. rewrite store_at_modular_length. exact Hlen. }
  assert (Hlegacy : forall cs i,
             length (store_at_legacy w cs i) = length (mocks w) + first + second).
  { intros cs i. rewrite store_at_legacy_length. fold second. lia. }
  assert (Hrecord : first_spy_restores w = true -> modular_record w modular = []).
  { intros Hr. apply modular_record_nil. left. exact Hr. }
  split; unfold final.
  - rewrite checkV9Deprecation_trace. cbv zeta.
    destruct (completion Noop modular) as [ [] | e ];
      [ | simpl; rewrite Hstop; lia ].
    destruct (modular_record w modular) as [ | q qs ].
    + destruct (completion Noop legacy) as [ [] | e ];
        [ destruct (Nat.eqb (length (payloads Noop legacy)) 1) | ]; simpl;
        rewrite Hlegacy; lia.
    + simpl. rewrite Hstop. unfold second.
      destruct (first_spy_restores w); [ | lia ].
      discriminate (Hrecord eq_refl).
  - rewrite (createCheckV9Deprecation_trace _ _ _ _ _ w Hwf). cbv zeta.
    destruct (completion Noop modular) as [ [] | e ];
      [ | simpl; rewrite Hstop; lia ].
    destruct (payloads Noop modular) as [ | q qs ];
      [ | simpl; rewrite Hstop; lia ].
    destruct (completion _ legacy) as [ [] | e ];
      [ destruct (Nat.eqb (length (payloads _ legacy)) 1) | ]; simpl;
      rewrite Hlegacy; lia.
Qed.

(** X13: the assertion of the checker's interceptor,
    [expect(warnMessage).toMatch(message)], passes exactly on the payloads
    that contain the message as a run of consecutive characters; it does
    not ask for equality. *)
Theorem toMatch_is_containment (warnMessage message : string) :
  expect_toMatch warnMessage message = Ok tt
  <-> exists pre post : string, warnMessage = (pre ++ message ++ post)%string.
Proof.
  rewrite <- includes_substring. unfold expect_toMatch.
  destruct (includes message warnMessage); split; congruence.
Qed.

End Harness.

(** ** The formatter *)

(** C7: the formatter gives equal strings on equal inputs, and calling it
    has no effect on the harness: the interceptor that calls it returns the
    same verdict on a payload in every environment, whatever has been
    recorded before. *)
Theorem createMessage_deterministic
    (opening between1 between2 delimiter : string)
    (moduleName methodNameKey instanceName : string)
    (uniqueMessage : option string)
    (moduleName' methodNameKey' instanceName' : string)
    (uniqueMessage' : option string) :
  moduleName = moduleName' ->
  methodNameKey = methodNameKey' ->
  instanceName = instanceName' ->
  uniqueMessage = uniqueMessage' ->
  Formatter.createMessage opening between1 between2 delimiter
    moduleName methodNameKey instanceName uniqueMessage
  = Formatter.createMessage opening between1 between2 delimiter
      moduleName' methodNameKey' instanceName' uniqueMessage'
  /\
  (forall (payload : string) (w1 w2 : world) (spy1 spy2 : nat)
          (calls1 calls2 : list string) (made1 made2 : bool),
     let format (m : option string) :=
       Formatter.createMessage opening between1 between2 delimiter
         (default "undefined" m) in
     let i := ExpectMatch (Some moduleName) methodNameKey instanceName
                          uniqueMessage in
     console_warn w1 = Spy spy1 ->
     mocks w1 !! spy1
     = Some {| calls := calls1; mockImpl := i; fromSpyOn := made1 |} ->
     console_warn w2 = Spy spy2 ->
     mocks w2 !! spy2
     = Some {| calls := calls2; mockImpl := i; fromSpyOn := made2 |} ->
     outcome (call_console_warn format payload) w1
     = outcome (call_console_warn format payload) w2).
Proof.
  intros -> -> -> ->. split; [ reflexivity | ].
  intros payload w1 w2 spy1 spy2 calls1 calls2 made1 made2 format i
    Hw1 Hm1 Hw2 Hm2.
  unfold outcome, call_console_warn. rewrite Hw1, Hm1, Hw2, Hm2. reflexivity.
Qed.

(** ** The theorems at concrete calls *)

Lemma legacy_call_asserted_exactly_once_witness :
  wf pristine
  /\ (console_warn {| console_warn := Spy 1;
                      mocks := [ {| calls := []; mockImpl := Unset;
                                    fromSpyOn := true |};
                                 {| calls := ["deprecated: database.onValue on default"];
                                    mockImpl := Noop; fromSpyOn := true |} ] |}
      = Spy 1
      /\ outcome (checkV9Deprecation exampleCreateMessage
                    modularOnValue legacyOnValue) pristine = Ok tt)
  /\ outcome (createCheckV9Deprecation exampleCreateMessage ["database"]
                modularOnValue legacyOnValue "onValue" None) pristine = Ok tt.
Proof.
  assert (Hwf : wf pristine) by exact I.
  destruct (legacy_call_asserted_exactly_once exampleCreateMessage ["database"]
              modularOnValue legacyOnValue "onValue" None pristine Hwf)
    as [ Hv9 Hchecker ].
  split; [ exact Hwf | ].
  split; [ exact (Hv9 _ 1 eq_refl) | ].
  exact (proj2 (Hchecker _ 1 eq_refl)).
Defined.

Lemma legacy_payloads_matched_against_createMessage_witness :
  wf pristine
  /\ outcome (createCheckV9Deprecation exampleCreateMessage ["database"]
                modularOnValue
                (Warn "deprecated: database.onValue on default"
                   (Warn "deprecated: database.on on default" Return None) None)
                "onValue" None) pristine
     = Err (ToMatchFailed "deprecated: database.on on default"
                          "deprecated: database.onValue on default")
  /\ outcome (createCheckV9Deprecation exampleCreateMessage ["database"]
                modularOnValue legacyOnValue "onValue" None) pristine
     <> Err (ToMatchFailed "deprecated: database.onValue on default"
                           "deprecated: database.onValue on default").
Proof.
  assert (Hwf : wf pristine) by exact I.
  destruct (legacy_payloads_matched_against_createMessage exampleCreateMessage
              ["database"] modularOnValue "onValue" None pristine
              Hwf eq_refl eq_refl)
    as [ Hmismatch Hmatch ].
  split; [ exact Hwf | ]. split.
  - apply (Hmismatch [ ("deprecated: database.onValue on default", None) ]
                     "deprecated: database.on on default" Return).
    + repeat constructor.
    + reflexivity.
  - apply (Hmatch legacyOnValue). repeat constructor.
Defined.

(** C3, as the spec has it, fails: the legacy function below warns with a
    payload that does not contain the expected message and catches what
    [console.warn] throws; the failure of [toMatch] does not reach the
    checker, which passes. *)
Lemma caught_mismatch_passes :
  includes (exampleCreateMessage (Some "database") "onValue" "default" None)
           "deprecated: database.on on default" = false
  /\ outcome (createCheckV9Deprecation exampleCreateMessage ["database"]
                modularOnValue
                (Warn "deprecated: database.on on default" Return (Some Return))
                "onValue" None) pristine
     = Ok tt.
Proof. split; reflexivity. Qed.




Lemma second_run_same_outcome_witness :
  wf pristine
  /\ outcome (checkV9Deprecation exampleCreateMessage modularOnValue Return)
             (final (checkV9Deprecation exampleCreateMessage
                       modularOnValue Return) pristine)
     = Err (CalledTimesFailed 1 0)
  /\ outcome (createCheckV9Deprecation exampleCreateMessage ["database"]
                legacyOnValue legacyOnValue "onValue" None)
             (final (createCheckV9Deprecation exampleCreateMessage ["database"]
                       legacyOnValue legacyOnValue "onValue" None) pristine)
     = Err (NotCalledFailed 1).
Proof.
  assert (Hwf : wf pristine) by exact I.
  split; [ exact Hwf | ]. split.
  - exact (proj1 (second_run_same_outcome exampleCreateMessage ["database"]
                    modularOnValue Return "onValue" None pristine Hwf)).
  - exact (proj2 (second_run_same_outcome exampleCreateMessage ["database"]
                    legacyOnValue legacyOnValue "onValue" None pristine Hwf)).
Defined.

Lemma createMessage_deterministic_witness :
  Formatter.createMessage "deprecated: " "." " on " " - "
    "database" "onValue" "default" (Some "")
  = "deprecated: database.onValue on default".
Proof.
  exact (proj1 (createMessage_deterministic "deprecated: " "." " on " " - "
                  "database" "onValue" "default" (Some "")
                  "database" "onValue" "default" (Some "")
                  eq_refl eq_refl eq_refl eq_refl)).
Defined.

Lemma checker_bound_to_module_and_instance_witness :
  wf pristine
  /\ "DatabaseReference" <> ""
  /\ outcome (createCheckV9Deprecation exampleCreateMessage
                ["database"; "DatabaseReference"] modularOnValue
                (Warn "deprecated: database.on on DatabaseReference" Return None)
                "on" None) pristine
     = Ok tt.
Proof.
  assert (Hwf : wf pristine) by exact I.
  assert (Hinst : "DatabaseReference" <> "") by discriminate.
  split; [ exact Hwf | ]. split; [ exact Hinst | ].
  exact (checker_bound_to_module_and_instance exampleCreateMessage
           "database" "DatabaseReference" [] modularOnValue "on" None
           "deprecated: database.on on DatabaseReference" pristine
           Hwf Hinst eq_refl eq_refl).
Defined.

Lemma instance_name_defaults_witness :
  wf pristine
  /\ (["database"; ""] !! 1 = None \/ ["database"; ""] !! 1 = Some "")
  /\ outcome (createCheckV9Deprecation exampleCreateMessage ["database"; ""]
                modularOnValue legacyOnValue "onValue" None) pristine
     = Ok tt.
Proof.
  assert (Hwf : wf pristine) by exact I.
  assert (Hsecond : ["database"; ""] !! 1 = None \/ ["database"; ""] !! 1 = Some "")
    by (right; reflexivity).
  split; [ exact Hwf | ]. split; [ exact Hsecond | ].
  exact (instance_name_defaults exampleCreateMessage ["database"; ""]
           modularOnValue "onValue" None
           "deprecated: database.onValue on default" pristine
           Hwf Hsecond eq_refl eq_refl).
Defined.

(** C10, as the claim has it, fails: with a [jest.fn()] in [console.warn]
    at the start, [mockRestore] does not take the first spy out; it records
    the warning of the modular function, and the run fails at
    [not.toHaveBeenCalled]. *)
Lemma jest_fn_fails_first_assertion :
  checkV9Deprecation_modular_call exampleCreateMessage
    (Warn "a modular warning" Return None) assigned
  = ({| console_warn := Spy 0;
        mocks := [ {| calls := ["a modular warning"]; mockImpl := Unset;
                      fromSpyOn := false |} ] |}, Ok 0)
  /\ outcome (checkV9Deprecation exampleCreateMessage
                (Warn "a modular warning" Return None) legacyOnValue) assigned
     = Err (NotCalledFailed 1).
Proof. split; reflexivity. Qed.

Lemma checkV9Deprecation_first_assertion_always_passes_witness :
  first_spy_restores spied = true
  /\ callCount 1 {| console_warn := Original;
                    mocks := [ {| calls := ["left over"]; mockImpl := Unset;
                                  fromSpyOn := true |};
                               {| calls := []; mockImpl := Unset;
                                  fromSpyOn := true |} ] |} = 0.
Proof.
  destruct (checkV9Deprecation_first_assertion_always_passes
              exampleCreateMessage (Warn "a modular warning" Return None)
              spied eq_refl) as (_ & Hcall & _).
  split; [ reflexivity | ].
  exact (proj1 (proj2 (Hcall _ 1 eq_refl))).
Defined.

Lemma checker_rejects_warning_modular_function_witness :
  wf spied
  /\ outcome (createCheckV9Deprecation exampleCreateMessage ["database"]
                (Warn "one" (Warn "two" Return None) None) legacyOnValue
                "onValue" None) spied
     = Err (NotCalledFailed 2)
  /\ mocks (final (createCheckV9Deprecation exampleCreateMessage ["database"]
                     (Warn "one" (Warn "two" Return None) None) legacyOnValue
                     "onValue" None) spied) !! 1
     = Some {| calls := ["one"; "two"]; mockImpl := Unset; fromSpyOn := true |}.
Proof.
  assert (Hwf : wf spied) by (unfold wf; simpl; lia).
  assert (Hwarned : payloads exampleCreateMessage Noop
                      (Warn "one" (Warn "two" Return None) None) <> [])
    by discriminate.
  destruct (checker_rejects_warning_modular_function exampleCreateMessage
              ["database"] (Warn "one" (Warn "two" Return None) None)
              legacyOnValue "onValue" None spied Hwf eq_refl Hwarned)
    as (Hout & _ & Hstore).
  split; [ exact Hwf | ]. split; [ exact Hout | exact Hstore ].
Defined.

Lemma modular_exception_propagates_witness :
  wf assigned
  /\ outcome (checkV9Deprecation exampleCreateMessage
                (Warn "one" (Throw "boom") None) legacyOnValue) assigned
     = Err (Thrown "boom")
  /\ console_warn (final (checkV9Deprecation exampleCreateMessage
                            (Warn "one" (Throw "boom") None) legacyOnValue)
                     assigned)
     = Spy 0
  /\ console_warn (final (checkV9Deprecation exampleCreateMessage
                            (Warn "one" (Throw "boom") None) legacyOnValue)
                     spied)
     = Original
  /\ console_warn (final (createCheckV9Deprecation exampleCreateMessage
                            ["database"] (Warn "one" (Throw "boom") None)
                            legacyOnValue "onValue" None) spied)
     = Spy 1.
Proof.
  assert (Hwf : wf assigned) by (unfold wf; simpl; lia).
  assert (Hwf' : wf spied) by (unfold wf; simpl; lia).
  destruct (modular_exception_propagates exampleCreateMessage ["database"]
              (Warn "one" (Throw "boom") None) legacyOnValue "onValue" None
              (Thrown "boom") assigned Hwf eq_refl)
    as [ [ Hout Hkept ] _ ].
  destruct (modular_exception_propagates exampleCreateMessage ["database"]
              (Warn "one" (Throw "boom") None) legacyOnValue "onValue" None
              (Thrown "boom") spied Hwf' eq_refl)
    as [ [ _ Hrestored ] [ _ Hchecker ] ].
  split; [ exact Hwf | ]. split; [ exact Hout | ]. split; [ exact Hkept | ].
  split; [ exact Hrestored | exact Hchecker ].
Defined.

Lemma legacy_exception_propagates_witness :
  wf pristine
  /\ outcome (checkV9Deprecation exampleCreateMessage modularOnValue
                (Warn "one" (Throw "boom") None)) pristine
     = Err (Thrown "boom")
  /\ outcome (createCheckV9Deprecation exampleCreateMessage ["database"]
                modularOnValue
                (Warn "deprecated: database.onValue on default" (Throw "boom") None)
                "onValue" None) pristine
     = Err (Thrown "boom").
Proof.
  assert (Hwf : wf pristine) by exact I.
  split; [ exact Hwf | ]. split.
  - exact (proj1 (legacy_exception_propagates exampleCreateMessage ["database"]
                    modularOnValue (Warn "one" (Throw "boom") None) "onValue"
                    None (Thrown "boom") pristine Hwf eq_refl)
             (or_introl eq_refl) eq_refl).
  - exact (proj2 (legacy_exception_propagates exampleCreateMessage ["database"]
                    modularOnValue
                    (Warn "deprecated: database.onValue on default"
                       (Throw "boom") None)
                    "onValue" None (Thrown "boom") pristine Hwf eq_refl)
             eq_refl eq_refl).
Defined.

Lemma checker_passes_iff_witness :
  wf pristine
  /\ lets_through legacyOnValue = true
  /\ outcome (createCheckV9Deprecation exampleCreateMessage ["database"]
                modularOnValue legacyOnValue "onValue" None) pristine
     = Ok tt.
Proof.
  assert (Hwf : wf pristine) by exact I.
  split; [ exact Hwf | ]. split; [ reflexivity | ].
  apply (checker_passes_iff exampleCreateMessage ["database"] modularOnValue
           legacyOnValue "onValue" None pristine Hwf eq_refl).
  split; [ reflexivity | ]. split; [ reflexivity | ]. split; [ reflexivity | ].
  exists "deprecated: database.onValue on default".
  split; reflexivity.
Defined.

Lemma caught_mismatch_not_reported_witness :
  wf pristine
  /\ includes "deprecated: database.onValue on default" "something else" = false
  /\ outcome (createCheckV9Deprecation exampleCreateMessage ["database"]
                modularOnValue (Warn "something else" Return (Some Return))
                "onValue" None) pristine
     = Ok tt.
Proof.
  assert (Hwf : wf pristine) by exact I.
  split; [ exact Hwf | ]. split; [ reflexivity | ].
  exact (caught_mismatch_not_reported exampleCreateMessage ["database"]
           modularOnValue Return Return "onValue" None "something else"
           pristine Hwf eq_refl eq_refl eq_refl eq_refl).
Defined.

Lemma checker_stricter_than_checkV9Deprecation_witness :
  wf pristine
  /\ lets_through legacyOnValue = true
  /\ outcome (createCheckV9Deprecation exampleCreateMessage ["database"]
                modularOnValue legacyOnValue "onValue" None) pristine
     = Ok tt
  /\ outcome (checkV9Deprecation exampleCreateMessage
                modularOnValue legacyOnValue) spied
     = Ok tt.
Proof.
  assert (Hwf : wf pristine) by exact I.
  split; [ exact Hwf | ]. split; [ reflexivity | ]. split; [ reflexivity | ].
  exact (checker_stricter_than_checkV9Deprecation exampleCreateMessage
           ["database"] modularOnValue legacyOnValue "onValue" None
           pristine spied Hwf eq_refl eq_refl).
Defined.

Lemma checker_agrees_with_checkV9Deprecation_witness :
  wf pristine
  /\ outcome (createCheckV9Deprecation exampleCreateMessage ["database"]
                modularOnValue
                (Warn "deprecated: database.onValue on default"
                   (Warn "again: deprecated: database.onValue on default, twice"
                      Return None) None)
                "onValue" None) pristine
     = Err (CalledTimesFailed 1 2).
Proof.
  assert (Hwf : wf pristine) by exact I.
  split; [ exact Hwf | ].
  refine (checker_agrees_with_checkV9Deprecation exampleCreateMessage
            ["database"] modularOnValue
            (Warn "deprecated: database.onValue on default"
               (Warn "again: deprecated: database.onValue on default, twice"
                  Return None) None)
            "onValue" None pristine Hwf eq_refl _).
  right. repeat constructor.
Defined.

Lemma harness_runs_do_not_interfere_witness :
  wf pristine
  /\ outcome (createCheckV9Deprecation exampleCreateMessage ["database"]
                modularOnValue legacyOnValue "onValue" None)
             (final (checkV9Deprecation exampleCreateMessage
                       legacyOnValue modularOnValue) pristine)
     = Ok tt.
Proof.
  assert (Hwf : wf pristine) by exact I.
  split; [ exact Hwf | ].
  exact (proj1 (harness_runs_do_not_interfere exampleCreateMessage
                  ["database"] [] modularOnValue legacyOnValue
                  legacyOnValue modularOnValue "onValue" "" None None
                  pristine Hwf)).
Defined.

Lemma installed_mock_is_taken_over_witness :
  console_warn spied = Spy 1
  /\ console_warn assigned = Spy 0
  /\ mocks (final (checkV9Deprecation exampleCreateMessage
                     modularOnValue legacyOnValue) spied) !! 1
     = Some {| calls := []; mockImpl := Unset; fromSpyOn := true |}
  /\ console_warn (final (createCheckV9Deprecation exampleCreateMessage
                            ["database"] modularOnValue legacyOnValue
                            "onValue" None) spied)
     <> Spy 1
  /\ console_warn (final (checkV9Deprecation exampleCreateMessage
                            modularOnValue legacyOnValue) assigned)
     = Spy 0
  /\ mocks (final (createCheckV9Deprecation exampleCreateMessage
                     ["database"] modularOnValue legacyOnValue
                     "onValue" None) assigned) !! 0
     = Some {| calls := []; mockImpl := Unset; fromSpyOn := false |}.
Proof.
  destruct (installed_mock_is_taken_over exampleCreateMessage
              ["database"] modularOnValue legacyOnValue "onValue" None
              spied 1 _ eq_refl eq_refl)
    as [ Hspy _ ].
  destruct (Hspy eq_refl) as [ [ Hv9 _ ] Hchecker ].
  destruct (installed_mock_is_taken_over exampleCreateMessage
              ["database"] modularOnValue legacyOnValue "onValue" None
              assigned 0 _ eq_refl eq_refl)
    as [ _ Hfn ].
  destruct (Hfn eq_refl) as (Hkept & _ & _ & Hwiped).
  split; [ reflexivity | ]. split; [ reflexivity | ].
  split; [ exact Hv9 | ].
  split; [ exact (proj2 (Hchecker eq_refl eq_refl)) | ].
  split; [ exact Hkept | exact (Hwiped eq_refl) ].
Defined.

Lemma other_mocks_untouched_witness :
  wf spied
  /\ 0 < length (mocks spied)
  /\ Spy 0 <> console_warn spied
  /\ mocks (final (createCheckV9Deprecation exampleCreateMessage
                     ["database"] legacyOnValue legacyOnValue
                     "onValue" None) spied) !! 0
     = Some {| calls := ["left over"]; mockImpl := Unset; fromSpyOn := true |}.
Proof.
  assert (Hwf : wf spied) by (unfold wf; simpl; lia).
  assert (Hid : 0 < length (mocks spied)) by (simpl; lia).
  assert (Hne : Spy 0 <> console_warn spied) by discriminate.
  split; [ exact Hwf | ]. split; [ exact Hid | ]. split; [ exact Hne | ].
  exact (proj2 (other_mocks_untouched exampleCreateMessage ["database"]
                  legacyOnValue legacyOnValue "onValue" None spied 0
                  Hwf Hid Hne)).
Defined.

Lemma mock_functions_made_by_a_run_witness :
  wf pristine
  /\ wf assigned
  /\ length (mocks (final (checkV9Deprecation exampleCreateMessage
                             modularOnValue legacyOnValue) pristine)) = 2
  /\ length (mocks (final (createCheckV9Deprecation exampleCreateMessage
                             ["database"] legacyOnValue legacyOnValue
                             "onValue" None) pristine)) = 1
  /\ length (mocks (final (checkV9Deprecation exampleCreateMessage
                             modularOnValue legacyOnValue) assigned)) = 1.
Proof.
  assert (Hwf : wf pristine) by exact I.
  assert (Hwf' : wf assigned) by (unfold wf; simpl; lia).
  split; [ exact Hwf | ]. split; [ exact Hwf' | ]. split; [ | split ].
  - exact (proj1 (mock_functions_made_by_a_run exampleCreateMessage
                    ["database"] modularOnValue legacyOnValue "onValue" None
                    pristine Hwf)).
  - exact (proj2 (mock_functions_made_by_a_run exampleCreateMessage
                    ["database"] legacyOnValue legacyOnValue "onValue" None
                    pristine Hwf)).
  - exact (proj1 (mock_functions_made_by_a_run exampleCreateMessage
                    ["database"] modularOnValue legacyOnValue "onValue" None
                    assigned Hwf')).
Defined.
